(** * grafana-feishu: the webhook relay, embedded and verified

    The repository holds two variants of one Go program (package [main]):
    - [server.go], the grouped variant: one Feishu card per Grafana
      notification, built from the notification-wide fields;
    - the per-alert variant: one Feishu card per entry of [alerts].

    Both share the start-up code that resolves the destination, the card
    types and the delivery code.  Go strings are byte strings and are
    modelled by [string] (a list of 8-bit [ascii]); Go's
    [map[string]string] is a [gmap string string], whose lookup [m !! k]
    is the two-valued [v, ok := m[k]]. *)

From Stdlib Require Import ZArith Ascii String List Lia.
From stdpp Require Import base option strings list gmap.

Local Open Scope string_scope.
Local Open Scope Z_scope.

(** ** Go's [strings] package, as far as the program uses it *)

Module strings.

(** The line feed, [\n] in a Go string literal. *)
Definition LF : ascii := "010"%char.

(** Whether the byte [c] occurs in [s]; for an all-ASCII cutset [s] this
    is membership in [makeASCIISet(s)]. *)
Fixpoint contains (s : string) (c : ascii) : bool :=
  match s with
  | EmptyString => false
  | String d rest => if Ascii.eqb c d then true else contains rest c
  end.

(** [trimLeftASCII]: drop the leading bytes that are in the set. *)
Fixpoint trimLeftASCII (s : string) (as_ : ascii -> bool) : string :=
  match s with
  | EmptyString => EmptyString
  | String c rest => if as_ c then trimLeftASCII rest as_ else s
  end.

(** [trimRightASCII]: drop the trailing bytes that are in the set. *)
Fixpoint trimRightASCII (s : string) (as_ : ascii -> bool) : string :=
  match s with
  | EmptyString => EmptyString
  | String c rest =>
      match trimRightASCII rest as_ with
      | EmptyString => if as_ c then EmptyString else String c EmptyString
      | kept => String c kept
      end
  end.

(** [strings.Trim(s, cutset)] for a cutset of ASCII bytes, which is what
    every call of the program passes: Go then takes the byte-wise path
    [trimLeftASCII(trimRightASCII(s, &as), &as)] (and, for a one-byte
    cutset, [trimLeftByte(trimRightByte(..))], which computes the same).
    Bytes of a multi-byte rune are at least 128 and so never in the set. *)
Definition Trim (s cutset : string) : string :=
  if decide (s = "" ∨ cutset = "") then s
  else trimLeftASCII (trimRightASCII s (contains cutset)) (contains cutset).

(** [strings.TrimRight(s, cutset)], same proviso. *)
Definition TrimRight (s cutset : string) : string :=
  if decide (s = "" ∨ cutset = "") then s
  else trimRightASCII s (contains cutset).

(** [strings.IndexByte(s, c)]: the index of the first [c] in [s]; [None]
    stands for Go's -1. *)
Fixpoint IndexByte (s : string) (c : ascii) : option nat :=
  match s with
  | EmptyString => None
  | String d rest =>
      if Ascii.eqb d c then Some 0%nat else option_map S (IndexByte rest c)
  end.

(** The loop of [genSplit(s, sep, 0, n)] for a separator of one byte, with
    [cuts] the number of cuts still allowed ([n - 1 - i] in the source):
    cut at the first separator, go on with what follows it, and put what
    is left last. *)
Fixpoint genSplit (s : string) (sep : ascii) (cuts : nat) : list string :=
  match cuts with
  | O => [s]
  | S cuts' =>
      match IndexByte s sep with
      | None => [s]
      | Some m =>
          String.substring 0 m s
          :: genSplit (String.substring (S m) (String.length s - S m) s) sep cuts'
      end
  end.

(** [strings.SplitN(s, sep, n)] for a separator of one byte and [n >= 0]:
    nil for [n = 0], else at most [n] pieces, the last one unsplit. *)
Definition SplitN (s : string) (sep : ascii) (n : nat) : list string :=
  match n with
  | O => []
  | S cuts => genSplit s sep cuts
  end.

End strings.

(** ** Go's [regexp] package: leftmost-first matching with submatches

    Go's [FindStringSubmatch] returns the leftmost match and, among the
    matches starting there, the one a backtracking search that prefers the
    greedy choice finds first.  [exec] is that search in continuation
    style over the bytes of the input.  Stepping by bytes instead of runes
    agrees with Go on patterns whose literals and classes are ASCII: the
    only construct that can consume a byte above 127 is [.], and a rune's
    continuation bytes match nothing else. *)

Module regexp.

Inductive Regexp : Type :=
| BeginText                                   (* ^  (flag m off) *)
| EndText                                     (* $  (flag m off) *)
| AnyCharNotNL                                (* .  (flag s off) *)
| Literal (c : ascii)
| CharClass (ranges : list (ascii * ascii))   (* [a-z...] *)
| Capture (index : nat) (sub : Regexp)        (* ( sub ) *)
| Star (sub : Regexp)                         (* sub*  greedy *)
| Quest (sub : Regexp)                        (* sub?  greedy *)
| Repeat (n : nat) (sub : Regexp)             (* sub{n} *)
| Concat (r1 r2 : Regexp).

(** The spans of the capture groups closed so far: index to [(start, end)]. *)
Abbreviation Caps := (gmap nat (nat * nat)).

(** A continuation: what is left to match, given the position, the rest
    of the input and the captures. *)
Abbreviation Cont := (nat -> string -> Caps -> option (nat * Caps)).

Definition in_range (c : ascii) (r : ascii * ascii) : bool :=
  (nat_of_ascii (fst r) <=? nat_of_ascii c)%nat
  && (nat_of_ascii c <=? nat_of_ascii (snd r))%nat.

Definition in_class (ranges : list (ascii * ascii)) (c : ascii) : bool :=
  existsb (in_range c) ranges.

Definition orelse {A} (x y : option A) : option A :=
  match x with Some _ => x | None => y end.

(** One byte, if it satisfies [p]. *)
Definition step (p : ascii -> bool) (k : Cont) : Cont :=
  fun pos rest caps =>
    match rest with
    | String c rest' => if p c then k (S pos) rest' caps else None
    | EmptyString => None
    end.

(** A greedy star over the matcher [m] of its operand: one more
    iteration first, then the continuation.  An iteration that consumes
    nothing is not repeated, so the length of the rest bounds the number
    of iterations. *)
Fixpoint star (m : Cont -> Cont) (k : Cont) (fuel : nat) : Cont :=
  fun pos rest caps =>
    match fuel with
    | O => k pos rest caps
    | S fuel' =>
        orelse
          (m (fun pos' rest' caps' =>
                if decide (pos < pos')%nat
                then star m k fuel' pos' rest' caps' else None)
             pos rest caps)
          (k pos rest caps)
    end.

(** [n] copies of the operand in a row. *)
Fixpoint times (m : Cont -> Cont) (n : nat) (k : Cont) : Cont :=
  match n with
  | O => k
  | S n' => m (times m n' k)
  end.

Fixpoint exec (r : Regexp) (k : Cont) {struct r} : Cont :=
  match r with
  | BeginText => fun pos rest caps =>
      if decide (pos = 0%nat) then k pos rest caps else None
  | EndText => fun pos rest caps =>
      match rest with EmptyString => k pos rest caps | _ => None end
  | AnyCharNotNL => step (fun c => negb (Ascii.eqb c strings.LF)) k
  | Literal d => step (Ascii.eqb d) k
  | CharClass ranges => step (in_class ranges) k
  | Capture i sub => fun pos rest caps =>
      exec sub (fun pos' rest' caps' => k pos' rest' (<[i := (pos, pos')]> caps'))
           pos rest caps
  | Star sub => fun pos rest caps =>
      star (exec sub) k (String.length rest) pos rest caps
  | Quest sub => fun pos rest caps =>
      orelse (exec sub k pos rest caps) (k pos rest caps)
  | Repeat n sub => times (exec sub) n k
  | Concat r1 r2 => exec r1 (exec r2 k)
  end.

(** The number of capture groups, [re.NumSubexp()]. *)
Fixpoint NumSubexp (r : Regexp) : nat :=
  match r with
  | Capture i sub => Nat.max i (NumSubexp sub)
  | Star sub | Quest sub | Repeat _ sub => NumSubexp sub
  | Concat r1 r2 => Nat.max (NumSubexp r1) (NumSubexp r2)
  | _ => 0
  end.

(** The unanchored search: the first start position, from the left, at
    which the pattern matches. *)
Fixpoint search (r : Regexp) (pos : nat) (rest : string)
  : option (nat * nat * Caps) :=
  match exec r (fun pos' _ caps => Some (pos', caps)) pos rest ∅ with
  | Some (e, caps) => Some (pos, e, caps)
  | None =>
      match rest with
      | String _ rest' => search r (S pos) rest'
      | EmptyString => None
      end
  end.

Definition slice (s : string) (span : nat * nat) : string :=
  String.substring (fst span) (snd span - fst span) s.

(** [re.FindStringSubmatch(s)]: the whole match, then one string per
    group, empty for a group that took no part; the nil slice (here
    [[]]) when there is no match. *)
Definition FindStringSubmatch (r : Regexp) (s : string) : list string :=
  match search r 0 s with
  | None => []
  | Some (b, e, caps) =>
      slice s (b, e)
      :: map (fun i => match caps !! i with
                       | Some span => slice s span
                       | None => ""
                       end)
             (seq 1 (NumSubexp r))
  end.

End regexp.

(** ** Start-up: the configuration the handler closes over *)

(** [os.Getenv]: the value of the variable, empty when it is unset. *)
Definition Getenv (env : gmap string string) (key : string) : string :=
  default "" (env !! key).

Definition defaultWebhookBase : string :=
  "https://open.feishu.cn/open-apis/bot/v2/hook".

(** [openai.GPT3Dot5Turbo] *)
Definition GPT3Dot5Turbo : string := "gpt-3.5-turbo".

(** The pattern given to [regexp.MustCompile]: begin of text, group 1 around
    a greedy star of any byte but the line feed, an optional slash, an
    optional group 2 of 36 bytes of the class [-a-z0-9], end of text. *)
Definition webhook_re : regexp.Regexp :=
  let dash := "-"%char in
  regexp.Concat regexp.BeginText
    (regexp.Concat (regexp.Capture 1 (regexp.Star regexp.AnyCharNotNL))
       (regexp.Concat (regexp.Quest (regexp.Literal "/"%char))
          (regexp.Concat
             (regexp.Quest
                (regexp.Capture 2
                   (regexp.Repeat 36
                      (regexp.CharClass
                         [(dash, dash); ("a"%char, "z"%char); ("0"%char, "9"%char)]))))
             regexp.EndText))).

(** The variables of [main] that the request handler captures. *)
Record Config : Type := {
  feishuWebhookBase : string;
  defaultBotUUID : string;
  openaiToken : string;
  openaiBaseURL : string;
  openaiModelName : string;
}.

(** The first part of [main], up to the construction of the fiber app, the
    same in both variants.  [None] is a run-time panic: indexing [matches]
    out of range.  The rest of [main] sets up the framework (the logger, the
    basic-auth middleware, the route and the listener) and is not modelled;
    a request is taken from the point where the handler is entered. *)
Definition load_config (env : gmap string string) : option Config :=
  let configuredWebhook := Getenv env "FEISHU_WEBHOOK" in
  destination ←
    (if decide (configuredWebhook ≠ "") then
       let matches := regexp.FindStringSubmatch webhook_re configuredWebhook in
       base ← matches !! 1%nat;
       uuid ← matches !! 2%nat;
       Some (base, uuid)
     else
       let base := strings.TrimRight (Getenv env "FEISHU_WEBHOOK_BASE") "/" in
       let base := if decide (base = "") then defaultWebhookBase else base in
       Some (base, Getenv env "FEISHU_WEBHOOK_UUID"));
  let openaiModelName := Getenv env "OPENAI_MODEL_NAME" in
  let openaiModelName :=
    if decide (openaiModelName = "") then GPT3Dot5Turbo else openaiModelName in
  Some {| feishuWebhookBase := destination.1;
          defaultBotUUID := destination.2;
          openaiToken := Getenv env "OPENAI_API_KEY";
          openaiBaseURL := Getenv env "OPENAI_BASE_URL";
          openaiModelName := openaiModelName |}.

(** The users of the basic-auth middleware, [basicauth.Config.Users]: none
    when WEBHOOK_AUTH is empty (the middleware is then not installed), else
    the one pair cut out of it.  The outer [None] is the panic of
    [parts[1]] on a slice of one piece. *)
Definition load_auth (env : gmap string string)
  : option (option (gmap string string)) :=
  let webhookAuth := Getenv env "WEBHOOK_AUTH" in
  if decide (webhookAuth ≠ "") then
    let parts := strings.SplitN webhookAuth ":"%char 2 in
    user ← parts !! 0%nat;
    password ← parts !! 1%nat;
    Some (Some {[ user := password ]})
  else Some None.

(** [main] up to [app.Listen]: the configuration, then the users. *)
Definition startup (env : gmap string string)
  : option (Config * option (gmap string string)) :=
  cfg ← load_config env;
  users ← load_auth env;
  Some (cfg, users).

(** ** Values exchanged with the outside *)

(** A Go [error]: the program only ever reads its message. *)
Record error : Type := { Error : string }.

(** A Go result pair [(value, err)]. *)
Inductive result (A : Type) : Type :=
| Ok (value : A)
| Err (err : error).
Arguments Ok {A} value.
Arguments Err {A} err.

(** The part of [github.com/sashabaranov/go-openai] the program touches. *)
Module openai.

Record ClientConfig : Type := { authToken : string; BaseURL : string }.

Definition DefaultConfig (token : string) : ClientConfig :=
  {| authToken := token; BaseURL := "https://api.openai.com/v1" |}.

Definition ChatMessageRoleSystem : string := "system".
Definition ChatMessageRoleUser : string := "user".

Record ChatCompletionMessage : Type := { Role : string; Content : string }.

Record ChatCompletionRequest : Type := {
  Model : string;
  Messages : list ChatCompletionMessage;
}.

Record ChatCompletionChoice : Type := { Message : ChatCompletionMessage }.

Record ChatCompletionResponse : Type := { Choices : list ChatCompletionChoice }.

End openai.

(** The card types, declared alike by both variants.  Each Go struct is a
    record in a module of its name, since the structs share field names. *)

Module FeishuCardTextElement.
Record t : Type := { Tag : string; Content : string }.
End FeishuCardTextElement.

Module FeishuCardDivElement.
Record t : Type := { Tag : string; Text : FeishuCardTextElement.t }.
End FeishuCardDivElement.

Module FeishuCardHeader.
Record t : Type := { Title : FeishuCardTextElement.t; Template : string }.
End FeishuCardHeader.

Module FeishuCardContent.
Record t : Type := {
  Header : FeishuCardHeader.t;
  Elements : list FeishuCardDivElement.t;
}.
End FeishuCardContent.

Module FeishuCard.
Record t : Type := { MsgType : string; Card : FeishuCardContent.t }.
End FeishuCard.

(** The card both handlers build from a title, a colour and a description. *)
Definition make_card (title color description : string) : FeishuCard.t :=
  {| FeishuCard.MsgType := "interactive";
     FeishuCard.Card :=
       {| FeishuCardContent.Header :=
            {| FeishuCardHeader.Title :=
                 {| FeishuCardTextElement.Tag := "plain_text";
                    FeishuCardTextElement.Content := title |};
               FeishuCardHeader.Template := color |};
          FeishuCardContent.Elements :=
            [ {| FeishuCardDivElement.Tag := "div";
                 FeishuCardDivElement.Text :=
                   {| FeishuCardTextElement.Tag := "lark_md";
                      FeishuCardTextElement.Content := description |} |} ] |} |}.

(** [card.Card.Header.Title.Content] *)
Definition card_title (card : FeishuCard.t) : string :=
  FeishuCardTextElement.Content
    (FeishuCardHeader.Title (FeishuCardContent.Header (FeishuCard.Card card))).

(** [card.Card.Header.Template] *)
Definition card_template (card : FeishuCard.t) : string :=
  FeishuCardHeader.Template (FeishuCardContent.Header (FeishuCard.Card card)).

(** The text of every element of the card, [e.Text.Content]. *)
Definition card_texts (card : FeishuCard.t) : list string :=
  map (fun e => FeishuCardTextElement.Content (FeishuCardDivElement.Text e))
      (FeishuCardContent.Elements (FeishuCard.Card card)).

(** The part of [net/http] the program touches.  The body of the request is
    the JSON text [json.Marshal] makes of the card; [encoding/json] cannot
    fail on these structs of strings, so the [if err != nil] after it is
    dead, and the model keeps the card itself as the body. *)
Module http.

Record Request : Type := {
  Method : string;
  URL : string;
  ContentType : string;
  Body : FeishuCard.t;
}.

(** What [ioutil.ReadAll(response.Body)] yields is kept with the status. *)
Record Response : Type := { StatusCode : Z; ResponseBody : string }.

End http.

(** ** Effects: the outside world and the handler monad *)

(** The lines the handlers write with [log.Printf], by their format. *)
Inductive LogLine : Type :=
| LogCallingOpenAI
| LogOpenAIFailed (err : error)
| LogDescription (description : string)
| LogCardJSON (card : FeishuCard.t)
| LogResponseBody (body : string).

(** What a request does to the outside, in the order it does it. *)
Inductive Event : Type :=
| EvChat (config : openai.ClientConfig) (request : openai.ChatCompletionRequest)
         (reply : result openai.ChatCompletionResponse)
| EvPost (request : http.Request) (reply : result http.Response)
| EvLog (line : LogLine).

(** The outside world: what the AI service and the destination answer,
    which may depend on everything that happened before, and which URLs
    [http.NewRequest] accepts. *)
Record Outside : Type := {
  chat_reply : list Event -> openai.ClientConfig -> openai.ChatCompletionRequest ->
               result openai.ChatCompletionResponse;
  url_accepted : string -> bool;
  post_reply : list Event -> http.Request -> result http.Response;
}.

(** The state of one request: the events so far, and the status of the
    response as the handler leaves it.  (When the handler returns an error,
    fiber's error handler writes the response and its status instead.) *)
Record World : Type := { trace : list Event; status : Z }.

(** fiber hands the handler a context whose response has status 200. *)
Definition StatusOK : Z := 200.
Definition fresh : World := {| trace := []; status := StatusOK |}.

(** How a piece of the handler ends: it goes on with a value, the handler
    returns (an error or nil), or the goroutine panics. *)
Inductive Step (A : Type) : Type :=
| Continue (a : A)
| Returned (err : option error)
| Panicked.
Arguments Continue {A} a.
Arguments Returned {A} err.
Arguments Panicked {A}.

Definition M (A : Type) : Type := World -> Step A * World.

#[global] Instance M_ret : MRet M := fun A a w => (Continue a, w).

#[global] Instance M_bind : MBind M := fun A B k m w =>
  match m w with
  | (Continue a, w') => k a w'
  | (Returned err, w') => (Returned err, w')
  | (Panicked, w') => (Panicked, w')
  end.

(** [return err] *)
Definition return_ {A} (err : option error) : M A := fun w => (Returned err, w).

Definition panic {A} : M A := fun w => (Panicked, w).

Definition emit (ev : Event) : M unit :=
  fun w => (Continue tt, {| trace := trace w ++ [ev]; status := status w |}).

(** [log.Printf] *)
Definition log (line : LogLine) : M unit := emit (EvLog line).

(** [if err != nil { return err }] after a call that yields a result. *)
Definition try {A} (r : result A) : M A :=
  match r with
  | Ok a => mret a
  | Err err => return_ (Some err)
  end.

(** [xs[i]], which panics out of range. *)
Definition index {A} (xs : list A) (i : nat) : M A :=
  match xs !! i with
  | Some x => mret x
  | None => panic
  end.

(** [for _, x := range xs { body }] *)
Fixpoint range {A} (xs : list A) (body : A -> M unit) : M unit :=
  match xs with
  | [] => mret tt
  | x :: rest => body x ;; range rest body
  end.

(** [c.SendStatus(code)]: sets the status of the response, yields nil. *)
Definition SendStatus (code : Z) : M (option error) :=
  fun w => (Continue None, {| trace := trace w; status := code |}).

(** How a request ends: the handler returned [err] to fiber (nil is
    success, and the response goes out with the status set so far), or the
    goroutine panicked. *)
Inductive Outcome : Type :=
| Replied (err : option error)
| Crashed.

(** One request: the handler run from the fresh context to its end. *)
Definition run (h : M (option error)) : Outcome * World :=
  match h fresh with
  | (Continue err, w) | (Returned err, w) => (Replied err, w)
  | (Panicked, w) => (Crashed, w)
  end.

(** What the handler reads of the fiber context: the outcome of
    [c.BodyParser(notification)], the struct filled from the JSON body or
    the parse error, and the value of the optional route segment
    [:botUUID?], empty when the path has none. *)
Record Ctx (N : Type) : Type := {
  BodyParser : result N;
  route_botUUID : string;
}.
Arguments BodyParser {N} c.
Arguments route_botUUID {N} c.

(** [c.Params("botUUID", defaultValue)]: the default stands in for an
    empty value. *)
Definition Params {N} (c : Ctx N) (defaultValue : string) : string :=
  if decide (route_botUUID c = "") then defaultValue else route_botUUID c.

Section Calls.

Variable out : Outside.

(** [client.CreateChatCompletion(ctx, request)] *)
Definition CreateChatCompletion (config : openai.ClientConfig)
    (request : openai.ChatCompletionRequest)
  : M (result openai.ChatCompletionResponse) :=
  fun w =>
    let reply := chat_reply out (trace w) config request in
    (Continue reply,
     {| trace := trace w ++ [EvChat config request reply]; status := status w |}).

(** [http.NewRequest("POST", url, body)] followed by
    [request.Header.Set("Content-Type", ..)].  The error of [NewRequest]
    is dropped by the program; with it comes a nil request, on which
    [Header.Set] panics. *)
Definition NewRequest (url : string) (body : FeishuCard.t) : M http.Request :=
  if url_accepted out url then
    mret {| http.Method := "POST"; http.URL := url;
            http.ContentType := "application/json; charset=UTF-8";
            http.Body := body |}
  else panic.

(** [http.DefaultClient.Do(request)], and, when it answers,
    [ioutil.ReadAll(response.Body)]. *)
Definition Do (request : http.Request) : M (result http.Response) :=
  fun w =>
    let reply := post_reply out (trace w) request in
    (Continue reply,
     {| trace := trace w ++ [EvPost request reply]; status := status w |}).

End Calls.

(** ** The grouped variant, [server.go] *)

Module Grouped.

Definition systemPrompt : string :=
"作为一名经验丰富的SRE运维专家，请分析以下告警信息。以精简、清晰的Markdown格式（兼容飞书卡片）返回分析结果，必须包含以下部分：

### 故障分析
- **告警摘要**: [一句话概括问题]
- **可能原因**: [列出1-3个最可能的原因]
- **影响范围**: [说明此问题可能造成的影响]

### 处置建议
- **排查步骤**:
  - [可直接执行的命令或检查步骤1]
  - [可直接执行的命令或检查步骤2]
- **恢复操作**:
  - [用于恢复服务的命令]
- **根本原因分析建议**:
  - [定位根本原因的建议或命令]

请确保所有命令都包裹在 Markdown 代码块中以便复制执行。请使用中文回复。".

(** [Values map[string]interface{}] is left out of the record: nothing
    reads it, and its values are arbitrary JSON. *)
Module Alert.
Record t : Type := {
  Status : string;
  Labels : gmap string string;
  Annotations : gmap string string;
  StartsAt : string;
  EndsAt : string;
  GeneratorURL : string;
  Fingerprint : string;
  SilenceURL : string;
  DashboardURL : string;
  PanelURL : string;
}.
End Alert.

Module Notification.
Record t : Type := {
  Receiver : string;
  Status : string;
  OrgID : Z;
  Alerts : list Alert.t;
  GroupLabels : gmap string string;
  CommonLabels : gmap string string;
  CommonAnnotations : gmap string string;
  ExternalURL : string;
  Version : string;
  GroupKey : string;
  TruncatedAlerts : Z;
  Title : string;
  State : string;
  Message : string;
}.
End Notification.

Section Handler.

Variable out : Outside.
Variable cfg : Config.

(** The function given to [app.Post("/:botUUID?", ..)].  Left out, as they
    change nothing the handler goes on to use: [c.Accepts], whose result is
    dropped, and the deferred [response.Body.Close()]. *)
Definition handler (c : Ctx Notification.t) : M (option error) :=
  notification ← try (BodyParser c);

  let title :=
    match Notification.CommonAnnotations notification !! "summary" with
    | Some title => title
    | None => Notification.Title notification
    end in

  let description :=
    match Notification.CommonAnnotations notification !! "description" with
    | Some description => description
    | None => Notification.Message notification
    end in

  let color := "red" in
  let color :=
    if decide (Notification.Status notification = "resolved")
    then "green" else color in

  description ←
    (if decide (openaiToken cfg ≠ "") then
       log LogCallingOpenAI;;
       let config := openai.DefaultConfig (openaiToken cfg) in
       let config :=
         if decide (openaiBaseURL cfg ≠ "")
         then {| openai.authToken := openai.authToken config;
                 openai.BaseURL := openaiBaseURL cfg |}
         else config in
       reply ← CreateChatCompletion out config
         {| openai.Model := openaiModelName cfg;
            openai.Messages :=
              [ {| openai.Role := openai.ChatMessageRoleSystem;
                   openai.Content := systemPrompt |};
                {| openai.Role := openai.ChatMessageRoleUser;
                   openai.Content := description |} ] |};
       match reply with
       | Err err =>
           log (LogOpenAIFailed err);;
           mret ("OpenAI API call failed: " +:+ Error err)
       | Ok resp =>
           choice ← index (openai.Choices resp) 0;
           let description :=
             strings.Trim (openai.Content (openai.Message choice))
                          ("```markdown" +:+ String strings.LF "") in
           let description := strings.Trim description "```" in
           log (LogDescription description);;
           mret description
       end
     else mret description);

  let feishuCard := make_card title color description in
  log (LogCardJSON feishuCard);;
  let botUUID := Params c (defaultBotUUID cfg) in
  let feishuWebhookURL := feishuWebhookBase cfg +:+ "/" +:+ botUUID in
  request ← NewRequest out feishuWebhookURL feishuCard;
  response ← Do out request ≫= try;
  log (LogResponseBody (http.ResponseBody response));;

  SendStatus 204.

(** One request served by this handler. *)
Definition serve (c : Ctx Notification.t) : Outcome * World :=
  run (handler c).

End Handler.

End Grouped.

(** ** The per-alert variant *)

Module PerAlert.

Definition systemPrompt : string :=
"你是经验丰富的SRE运维专家，请分析这个告警，并以飞书卡片能解析的Markdown格式返回，包含以下内容：

### 故障分析
[请在这里填写故障分析]

### 处置建议
[请在这里填写处置建议]

请使用中文回复。".

Module Alert.
Record t : Type := {
  Status : string;
  Annotations : gmap string string;
  Labels : gmap string string;
  StartsAt : string;
}.
End Alert.

Module Notification.
Record t : Type := { Alerts : list Alert.t }.
End Notification.

Section Handler.

Variable out : Outside.
Variable cfg : Config.

(** The body of [for _, alert := range notification.Alerts]. *)
Definition each_alert (c : Ctx Notification.t) (alert : Alert.t) : M unit :=
  let title :=
    match Alert.Annotations alert !! "summary" with
    | Some title => title
    | None =>
        match Alert.Labels alert !! "alertname" with
        | Some title => title
        | None => "[No Title]"
        end
    end in
  let description :=
    match Alert.Annotations alert !! "description" with
    | Some description => description
    | None => "[No description]"
    end in

  description ←
    (if decide (openaiToken cfg ≠ "") then
       let config := openai.DefaultConfig (openaiToken cfg) in
       let config :=
         if decide (openaiBaseURL cfg ≠ "")
         then {| openai.authToken := openai.authToken config;
                 openai.BaseURL := openaiBaseURL cfg |}
         else config in
       reply ← CreateChatCompletion out config
         {| openai.Model := openaiModelName cfg;
            openai.Messages :=
              [ {| openai.Role := openai.ChatMessageRoleSystem;
                   openai.Content := systemPrompt |};
                {| openai.Role := openai.ChatMessageRoleUser;
                   openai.Content := description |} ] |};
       match reply with
       | Ok resp =>
           choice ← index (openai.Choices resp) 0;
           mret (openai.Content (openai.Message choice))
       | Err _ => mret description
       end
     else mret description);

  let color := "red" in
  let color :=
    if decide (Alert.Status alert = "resolved") then "green" else color in
  let feishuCard := make_card title color description in
  let botUUID := Params c (defaultBotUUID cfg) in
  let feishuWebhookURL := feishuWebhookBase cfg +:+ "/" +:+ botUUID in
  request ← NewRequest out feishuWebhookURL feishuCard;
  response ← Do out request ≫= try;
  log (LogResponseBody (http.ResponseBody response)).

(** The function given to [app.Post("/:botUUID?", ..)]; [c.Accepts] and the
    deferred [response.Body.Close()] are left out as in the grouped variant. *)
Definition handler (c : Ctx Notification.t) : M (option error) :=
  notification ← try (BodyParser c);
  (if decide (length (Notification.Alerts notification) = 0%nat)
   then return_ None else mret tt);;
  range (Notification.Alerts notification) (each_alert c);;
  SendStatus 204.

Definition serve (c : Ctx Notification.t) : Outcome * World :=
  run (handler c).

End Handler.

(** The two variants read the same JSON bodies.  [encoding/json] fills
    the fields a struct declares and skips every other key, so where the
    grouped variant's struct holds [n] after [BodyParser], this
    variant's holds [decode n]. *)
Definition decode_alert (a : Grouped.Alert.t) : Alert.t :=
  {| Alert.Status := Grouped.Alert.Status a;
     Alert.Annotations := Grouped.Alert.Annotations a;
     Alert.Labels := Grouped.Alert.Labels a;
     Alert.StartsAt := Grouped.Alert.StartsAt a |}.

Definition decode (n : Grouped.Notification.t) : Notification.t :=
  {| Notification.Alerts := map decode_alert (Grouped.Notification.Alerts n) |}.

End PerAlert.

(** ** Reading a trace *)

(** The card deliveries of a trace: destination URL and card, in order. *)
Fixpoint posts (evs : list Event) : list (string * FeishuCard.t) :=
  match evs with
  | [] => []
  | EvPost request _ :: rest => (http.URL request, http.Body request) :: posts rest
  | _ :: rest => posts rest
  end.

(** The chat-completion calls of a trace. *)
Fixpoint chats (evs : list Event) : list openai.ChatCompletionRequest :=
  match evs with
  | [] => []
  | EvChat _ request _ :: rest => request :: chats rest
  | _ :: rest => chats rest
  end.

(** ** Reading a string *)

Definition first_byte (s : string) : option ascii :=
  match s with
  | EmptyString => None
  | String c _ => Some c
  end.

Fixpoint last_byte (s : string) : option ascii :=
  match s with
  | EmptyString => None
  | String c EmptyString => Some c
  | String _ rest => last_byte rest
  end.

(** Every byte of [s] satisfies [p]. *)
Fixpoint all_bytes (p : ascii -> bool) (s : string) : bool :=
  match s with
  | EmptyString => true
  | String c rest => p c && all_bytes p rest
  end.

(** Whether [o] is a byte of the set [p]. *)
Definition byte_in (p : ascii -> bool) (o : option ascii) : bool :=
  match o with
  | Some c => p c
  | None => false
  end.

(** A pattern none of whose literals and classes takes a line feed. *)
Fixpoint lf_free (r : regexp.Regexp) : bool :=
  match r with
  | regexp.Literal c => negb (Ascii.eqb c strings.LF)
  | regexp.CharClass ranges => negb (regexp.in_class ranges strings.LF)
  | regexp.Capture _ sub | regexp.Star sub | regexp.Quest sub
  | regexp.Repeat _ sub => lf_free sub
  | regexp.Concat r1 r2 => lf_free r1 && lf_free r2
  | _ => true
  end.

(** A matcher in continuation style that consumes a prefix without line
    feed before it hands over to its continuation. *)
Definition consumes_no_lf (m : regexp.Cont -> regexp.Cont) : Prop :=
  forall (k : regexp.Cont) pos rest caps x,
    m k pos rest caps = Some x ->
    exists pre rest' pos' caps',
      rest = pre +:+ rest'
      /\ strings.contains pre strings.LF = false
      /\ k pos' rest' caps' = Some x.

(** The cutset of the first [strings.Trim] of the grouped handler. *)
Definition fence_cutset : string := "```markdown" +:+ String strings.LF "".

(** ** The shape of a run

    What a request can leave behind, written out case by case: the events
    in their order, the outcome and the final status.  [serve_served] and
    [serve_shape] below prove that the handlers produce nothing else. *)

Module GroupedRun.

Import Grouped.

Section Shape.

Variable out : Outside.
Variable cfg : Config.
Variable c : Ctx Notification.t.
Variable n : Notification.t.

Definition title : string :=
  match Notification.CommonAnnotations n !! "summary" with
  | Some title => title
  | None => Notification.Title n
  end.

Definition description : string :=
  match Notification.CommonAnnotations n !! "description" with
  | Some description => description
  | None => Notification.Message n
  end.

Definition color : string :=
  if decide (Notification.Status n = "resolved") then "green" else "red".

Definition destination : string :=
  feishuWebhookBase cfg +:+ "/" +:+ Params c (defaultBotUUID cfg).

Definition chat_config : openai.ClientConfig :=
  if decide (openaiBaseURL cfg ≠ "")
  then {| openai.authToken := openaiToken cfg;
          openai.BaseURL := openaiBaseURL cfg |}
  else openai.DefaultConfig (openaiToken cfg).

Definition chat_request : openai.ChatCompletionRequest :=
  {| openai.Model := openaiModelName cfg;
     openai.Messages :=
       [ {| openai.Role := "system"; openai.Content := systemPrompt |};
         {| openai.Role := "user"; openai.Content := description |} ] |}.

(** The two [strings.Trim] calls on the reply of the model. *)
Definition strip (content : string) : string :=
  strings.Trim (strings.Trim content ("```markdown" +:+ String strings.LF ""))
               "```".

Definition post_request (d : string) : http.Request :=
  {| http.Method := "POST"; http.URL := destination;
     http.ContentType := "application/json; charset=UTF-8";
     http.Body := make_card title color d |}.

(** The enrichment step: its events and the description it leaves. *)
Inductive enriched : list Event -> string -> Prop :=
| enriched_skip :
    openaiToken cfg = "" ->
    enriched [] description
| enriched_fail err :
    openaiToken cfg ≠ "" ->
    enriched [EvLog LogCallingOpenAI;
              EvChat chat_config chat_request (Err err);
              EvLog (LogOpenAIFailed err)]
             ("OpenAI API call failed: " +:+ Error err)
| enriched_reply resp choice :
    openaiToken cfg ≠ "" ->
    openai.Choices resp !! 0%nat = Some choice ->
    enriched [EvLog LogCallingOpenAI;
              EvChat chat_config chat_request (Ok resp);
              EvLog (LogDescription
                       (strip (openai.Content (openai.Message choice))))]
             (strip (openai.Content (openai.Message choice))).

(** A whole request whose body parsed to [n]. *)
Inductive served : Outcome -> World -> Prop :=
| served_no_choice resp :
    openaiToken cfg ≠ "" ->
    openai.Choices resp = [] ->
    served Crashed
      {| trace := [EvLog LogCallingOpenAI;
                   EvChat chat_config chat_request (Ok resp)];
         status := 200 |}
| served_nil_request evs d :
    enriched evs d ->
    url_accepted out destination = false ->
    served Crashed
      {| trace := evs ++ [EvLog (LogCardJSON (make_card title color d))];
         status := 200 |}
| served_unreachable evs d err :
    enriched evs d ->
    url_accepted out destination = true ->
    served (Replied (Some err))
      {| trace := evs ++ [EvLog (LogCardJSON (make_card title color d));
                          EvPost (post_request d) (Err err)];
         status := 200 |}
| served_delivered evs d resp :
    enriched evs d ->
    url_accepted out destination = true ->
    served (Replied None)
      {| trace := evs ++ [EvLog (LogCardJSON (make_card title color d));
                          EvPost (post_request d) (Ok resp);
                          EvLog (LogResponseBody (http.ResponseBody resp))];
         status := 204 |}.

End Shape.

End GroupedRun.

Module PerAlertRun.

Import PerAlert.

Section Shape.

Variable out : Outside.
Variable cfg : Config.
Variable c : Ctx Notification.t.

Definition title (alert : Alert.t) : string :=
  match Alert.Annotations alert !! "summary" with
  | Some title => title
  | None =>
      match Alert.Labels alert !! "alertname" with
      | Some title => title
      | None => "[No Title]"
      end
  end.

Definition description (alert : Alert.t) : string :=
  match Alert.Annotations alert !! "description" with
  | Some description => description
  | None => "[No description]"
  end.

Definition color (alert : Alert.t) : string :=
  if decide (Alert.Status alert = "resolved") then "green" else "red".

Definition destination : string :=
  feishuWebhookBase cfg +:+ "/" +:+ Params c (defaultBotUUID cfg).

Definition chat_config : openai.ClientConfig :=
  if decide (openaiBaseURL cfg ≠ "")
  then {| openai.authToken := openaiToken cfg;
          openai.BaseURL := openaiBaseURL cfg |}
  else openai.DefaultConfig (openaiToken cfg).

Definition chat_request (alert : Alert.t) : openai.ChatCompletionRequest :=
  {| openai.Model := openaiModelName cfg;
     openai.Messages :=
       [ {| openai.Role := "system"; openai.Content := systemPrompt |};
         {| openai.Role := "user"; openai.Content := description alert |} ] |}.

Definition post_request (alert : Alert.t) (d : string) : http.Request :=
  {| http.Method := "POST"; http.URL := destination;
     http.ContentType := "application/json; charset=UTF-8";
     http.Body := make_card (title alert) (color alert) d |}.

(** The enrichment step for one alert. *)
Inductive enriched (alert : Alert.t) : list Event -> string -> Prop :=
| enriched_skip :
    openaiToken cfg = "" ->
    enriched alert [] (description alert)
| enriched_fail err :
    openaiToken cfg ≠ "" ->
    enriched alert [EvChat chat_config (chat_request alert) (Err err)]
             (description alert)
| enriched_reply resp choice :
    openaiToken cfg ≠ "" ->
    openai.Choices resp !! 0%nat = Some choice ->
    enriched alert [EvChat chat_config (chat_request alert) (Ok resp)]
             (openai.Content (openai.Message choice)).

(** One turn of the loop: its events and how it ends. *)
Inductive turn (alert : Alert.t) : list Event -> Step unit -> Prop :=
| turn_no_choice resp :
    openaiToken cfg ≠ "" ->
    openai.Choices resp = [] ->
    turn alert [EvChat chat_config (chat_request alert) (Ok resp)] Panicked
| turn_nil_request evs d :
    enriched alert evs d ->
    url_accepted out destination = false ->
    turn alert evs Panicked
| turn_unreachable evs d err :
    enriched alert evs d ->
    url_accepted out destination = true ->
    turn alert (evs ++ [EvPost (post_request alert d) (Err err)])
         (Returned (Some err))
| turn_delivered evs d resp :
    enriched alert evs d ->
    url_accepted out destination = true ->
    turn alert (evs ++ [EvPost (post_request alert d) (Ok resp);
                        EvLog (LogResponseBody (http.ResponseBody resp))])
         (Continue tt).

(** The loop over the alerts: turns in a row, up to the first that does
    not go on. *)
Inductive turns : list Alert.t -> list Event -> Step unit -> Prop :=
| turns_done :
    turns [] [] (Continue tt)
| turns_stop alert rest evs r :
    turn alert evs r ->
    r ≠ Continue tt ->
    turns (alert :: rest) evs r
| turns_next alert rest evs evs' r :
    turn alert evs (Continue tt) ->
    turns rest evs' r ->
    turns (alert :: rest) (evs ++ evs') r.

(** A whole request whose body parsed to a notification with [alerts]. *)
Inductive served (alerts : list Alert.t) : Outcome -> World -> Prop :=
| served_no_alert :
    alerts = [] ->
    served alerts (Replied None) fresh
| served_all evs :
    alerts ≠ [] ->
    turns alerts evs (Continue tt) ->
    served alerts (Replied None) {| trace := evs; status := 204 |}
| served_error evs err :
    alerts ≠ [] ->
    turns alerts evs (Returned err) ->
    served alerts (Replied err) {| trace := evs; status := 200 |}
| served_panic evs :
    alerts ≠ [] ->
    turns alerts evs Panicked ->
    served alerts Crashed {| trace := evs; status := 200 |}.

(** The events a turn of the loop can leave. *)
Definition turn_event (alert : Alert.t) (ev : Event) : Prop :=
  (openaiToken cfg ≠ ""
   /\ exists reply, ev = EvChat chat_config (chat_request alert) reply)
  \/ (exists d reply, ev = EvPost (post_request alert d) reply)
  \/ (exists body, ev = EvLog (LogResponseBody body)).

(** What the card of a delivery owes to its alert: the destination, the
    title and the colour, and the description when there is no key. *)
Definition card_for (alert : Alert.t) (pc : string * FeishuCard.t) : Prop :=
  exists d, pc = (destination, make_card (title alert) (color alert) d)
            /\ (openaiToken cfg = "" -> d = description alert).

End Shape.

End PerAlertRun.

(** ** Sample worlds and payloads

    Concrete inputs on which the handlers are run below. *)

Definition fenced_reply : string :=
  "```markdown" +:+ String strings.LF "### X" +:+ String strings.LF "```".

Definition reply_with (content : string) : openai.ChatCompletionResponse :=
  {| openai.Choices :=
       [ {| openai.Message :=
              {| openai.Role := "assistant"; openai.Content := content |} |} ] |}.

(** The model answers with a fenced report, the destination with 200. *)
Definition outside_up : Outside :=
  {| chat_reply := fun _ _ _ => Ok (reply_with fenced_reply);
     url_accepted := fun _ => true;
     post_reply := fun _ _ =>
       Ok {| http.StatusCode := 200; http.ResponseBody := "{}" |} |}.

(** The model cannot be reached, the destination answers 500. *)
Definition outside_ai_down : Outside :=
  {| chat_reply := fun _ _ _ => Err {| Error := "context deadline exceeded" |};
     url_accepted := fun _ => true;
     post_reply := fun _ _ =>
       Ok {| http.StatusCode := 500; http.ResponseBody := "internal error" |} |}.

(** The destination cannot be reached. *)
Definition outside_unreachable : Outside :=
  {| chat_reply := fun _ _ _ => Ok (reply_with fenced_reply);
     url_accepted := fun _ => true;
     post_reply := fun _ _ => Err {| Error := "dial tcp: no such host" |} |}.

(** The model answers with a fenced report that ends in a word made of
    cutset letters. *)
Definition outside_daemon : Outside :=
  {| chat_reply := fun _ _ _ =>
       Ok (reply_with ("```markdown" +:+ String strings.LF "### Restart the daemon"
                       +:+ String strings.LF "```"));
     url_accepted := fun _ => true;
     post_reply := fun _ _ =>
       Ok {| http.StatusCode := 200; http.ResponseBody := "{}" |} |}.

(** The model answers without a choice. *)
Definition outside_no_choice : Outside :=
  {| chat_reply := fun _ _ _ => Ok {| openai.Choices := [] |};
     url_accepted := fun _ => true;
     post_reply := fun _ _ =>
       Ok {| http.StatusCode := 200; http.ResponseBody := "{}" |} |}.

(** [http.NewRequest] refuses every URL. *)
Definition outside_bad_url : Outside :=
  {| chat_reply := fun _ _ _ => Ok (reply_with fenced_reply);
     url_accepted := fun _ => false;
     post_reply := fun _ _ =>
       Ok {| http.StatusCode := 200; http.ResponseBody := "{}" |} |}.

(** The destination answers the first POST and cannot be reached after. *)
Definition outside_second_fails : Outside :=
  {| chat_reply := fun _ _ _ => Ok (reply_with fenced_reply);
     url_accepted := fun _ => true;
     post_reply := fun history _ =>
       match posts history with
       | [] => Ok {| http.StatusCode := 200; http.ResponseBody := "{}" |}
       | _ => Err {| Error := "connection reset by peer" |}
       end |}.





Definition cfg_plain : Config :=
  {| feishuWebhookBase := "https://x/hook"; defaultBotUUID := "";
     openaiToken := ""; openaiBaseURL := ""; openaiModelName := GPT3Dot5Turbo |}.

Definition cfg_ai : Config :=
  {| feishuWebhookBase := "https://x/hook"; defaultBotUUID := "bot0";
     openaiToken := "sk-test"; openaiBaseURL := ""; openaiModelName := GPT3Dot5Turbo |}.

Definition alert_of (status : string) (labels annotations : gmap string string)
  : Grouped.Alert.t :=
  {| Grouped.Alert.Status := status;
     Grouped.Alert.Labels := labels;
     Grouped.Alert.Annotations := annotations;
     Grouped.Alert.StartsAt := "2024-01-01T00:00:00Z";
     Grouped.Alert.EndsAt := "0001-01-01T00:00:00Z";
     Grouped.Alert.GeneratorURL := "";
     Grouped.Alert.Fingerprint := "";
     Grouped.Alert.SilenceURL := "";
     Grouped.Alert.DashboardURL := "";
     Grouped.Alert.PanelURL := "" |}.

Definition notification_of (status : string)
    (commonLabels commonAnnotations : gmap string string)
    (alerts : list Grouped.Alert.t) : Grouped.Notification.t :=
  {| Grouped.Notification.Receiver := "feishu";
     Grouped.Notification.Status := status;
     Grouped.Notification.OrgID := 1;
     Grouped.Notification.Alerts := alerts;
     Grouped.Notification.GroupLabels := commonLabels;
     Grouped.Notification.CommonLabels := commonLabels;
     Grouped.Notification.CommonAnnotations := commonAnnotations;
     Grouped.Notification.ExternalURL := "";
     Grouped.Notification.Version := "1";
     Grouped.Notification.GroupKey := "";
     Grouped.Notification.TruncatedAlerts := 0;
     Grouped.Notification.Title := "[FIRING:1] from Grafana";
     Grouped.Notification.State := "alerting";
     Grouped.Notification.Message := "message from Grafana" |}.

(** The payload of the end-to-end scenario, with one alert added. *)
Definition cpu_high : Grouped.Notification.t :=
  notification_of "firing" ∅
    {[ "summary" := "CPU high"; "description" := "load avg 8.2" ]}
    [ alert_of "resolved" {[ "alertname" := "DiskFull" ]}
               {[ "summary" := "Disk full on db1"; "description" := "95% used" ]} ].

(** A payload with no summary anywhere, and [alertname] among the labels. *)
Definition only_alertname : Grouped.Notification.t :=
  notification_of "firing" {[ "alertname" := "DiskFull" ]} ∅
    [ alert_of "firing" {[ "alertname" := "DiskFull" ]} ∅ ].

(** A payload without alerts. *)
Definition no_alerts : Grouped.Notification.t :=
  notification_of "firing" ∅ {[ "summary" := "CPU high" ]} [].

(** A payload of three alerts: one with a summary, one with only an
    alertname, one with neither. *)
Definition three_alerts : Grouped.Notification.t :=
  notification_of "firing" ∅ ∅
    [ alert_of "firing" {[ "alertname" := "DiskFull" ]}
               {[ "summary" := "Disk full on db1"; "description" := "95% used" ]};
      alert_of "resolved" {[ "alertname" := "HighLoad" ]} ∅;
      alert_of "firing" {[ "instance" := "db2" ]} ∅ ].

Definition request_of {N} (n : N) (bot : string) : Ctx N :=
  {| BodyParser := Ok n; route_botUUID := bot |}.

(** ** Proof tactics *)

(** Unfolds the operations of the handler monad. *)
Ltac unfold_ops :=
  unfold try, index, log, emit, Do, NewRequest, CreateChatCompletion, SendStatus,
    return_, panic, mbind, M_bind, mret, M_ret in *.

Ltac tidy_run :=
  repeat match goal with
         | H : post_reply _ _ _ = _ |- _ => clear H
         | H : chat_reply _ _ _ _ = _ |- _ => clear H
         | H : decide _ = _ |- _ => clear H
         | H : ¬ (_ ≠ _) |- _ => apply dec_stable in H
         end.

(** Closes a goal in which a response without choices has a first choice. *)
Ltac no_choice Hnil :=
  match goal with
  | H : openai.Choices _ !! 0%nat = Some _ |- _ =>
      rewrite Hnil in H; discriminate H
  end.

(** Membership in a list that is written out, as a goal and as a hypothesis. *)
Ltac list_mem := rewrite ?elem_of_app, ?elem_of_cons; eauto 10.

Ltac in_list H :=
  repeat first
    [ apply elem_of_nil in H; contradiction
    | apply elem_of_cons in H; destruct H as [H|H];
      [ try discriminate H; try (injection H as H); subst |] ].

(** * Properties *)

(** ** Start-up *)

Section Regexp.

Import regexp.

Lemma substring_all (s : string) : String.substring 0 (String.length s) s = s.
Proof. induction s as [|c s IH]; simpl; [reflexivity | now rewrite IH]. Qed.

(** On a rest without line feed the greedy [.*] runs to the end of the
    text, as soon as what follows it succeeds there. *)
Lemma star_any_runs_to_end (k : Cont) (r : nat * Caps) (caps : Caps) :
  forall (rest : string) (fuel pos : nat),
    (String.length rest <= fuel)%nat ->
    strings.contains rest strings.LF = false ->
    k (pos + String.length rest)%nat "" caps = Some r ->
    star (exec AnyCharNotNL) k fuel pos rest caps = Some r.
Proof.
  induction rest as [|c rest IH]; intros fuel pos Hfuel Hnl Hk.
  - simpl in Hk. rewrite Nat.add_0_r in Hk.
    destruct fuel; simpl; [exact Hk | now rewrite Hk].
  - destruct fuel as [|fuel]; [simpl in Hfuel; lia|].
    cbn [strings.contains] in Hnl. rewrite Ascii.eqb_sym in Hnl.
    destruct (Ascii.eqb c strings.LF) eqn:Hc; [discriminate|].
    set (m := exec AnyCharNotNL) in *.
    cbn [star]. unfold m at 1. cbn [exec step]. rewrite Hc. cbn [negb].
    destruct (decide (pos < S pos)%nat) as [_|Hn]; [|lia].
    rewrite (IH fuel (S pos)); [reflexivity | simpl in Hfuel; lia | exact Hnl |].
    simpl in Hk. now rewrite Nat.add_succ_r in Hk.
Qed.

(** The pattern of [main] on a text without line feed: the first group
    takes the whole text and the second takes no part. *)
Lemma webhook_re_greedy (s : string) :
  strings.contains s strings.LF = false ->
  FindStringSubmatch webhook_re s = [s; s; ""].
Proof.
  intros Hnl.
  assert (Hexec : exec webhook_re (fun pos' _ caps => Some (pos', caps)) 0 s ∅
                  = Some (String.length s, {[ 1%nat := (0%nat, String.length s) ]})).
  { unfold webhook_re. cbn [exec]. destruct (decide (0 = 0)%nat) as [_|]; [|done].
    apply star_any_runs_to_end; [lia | exact Hnl |].
    reflexivity. }
  unfold FindStringSubmatch.
  assert (Hsearch : search webhook_re 0 s
                    = Some (0%nat, String.length s,
                            {[ 1%nat := (0%nat, String.length s) ]})).
  { destruct s; cbn [search]; now rewrite Hexec. }
  rewrite Hsearch. unfold slice. cbn [fst snd NumSubexp webhook_re seq map Nat.max].
  rewrite Nat.sub_0_r, substring_all.
  cbn [seq map]. rewrite lookup_singleton_eq, lookup_singleton_ne by done.
  cbn [fst snd]. now rewrite Nat.sub_0_r, substring_all.
Qed.

End Regexp.

Example load_config_readme :
  load_config {[ "FEISHU_WEBHOOK" :=
                 "https://open.feishu.cn/open-apis/bot/v2/hook/a21843-123-123-abc987" ]}
  = Some {| feishuWebhookBase :=
              "https://open.feishu.cn/open-apis/bot/v2/hook/a21843-123-123-abc987";
            defaultBotUUID := "";
            openaiToken := ""; openaiBaseURL := "";
            openaiModelName := "gpt-3.5-turbo" |}.
Proof. vm_compute. reflexivity. Qed.

Example load_config_base_uuid :
  load_config {[ "FEISHU_WEBHOOK_BASE" := "https://h/hook//";
                 "FEISHU_WEBHOOK_UUID" := "abc" ]}
  = Some {| feishuWebhookBase := "https://h/hook";
            defaultBotUUID := "abc";
            openaiToken := ""; openaiBaseURL := "";
            openaiModelName := "gpt-3.5-turbo" |}.
Proof. vm_compute. reflexivity. Qed.

(** The matcher backtracks where the pattern asks for it: once the slash
    and the second group are no longer optional, the UUID is split off. *)
Example strict_pattern_splits :
  let strict :=
    regexp.Concat regexp.BeginText
      (regexp.Concat (regexp.Capture 1 (regexp.Star regexp.AnyCharNotNL))
         (regexp.Concat (regexp.Literal "/"%char)
            (regexp.Concat
               (regexp.Capture 2
                  (regexp.Repeat 36
                     (regexp.CharClass
                        [("-"%char, "-"%char); ("a"%char, "z"%char);
                         ("0"%char, "9"%char)])))
               regexp.EndText))) in
  regexp.FindStringSubmatch strict
    "https://h/hook/0a1b2c3d-0a1b-0a1b-0a1b-0a1b2c3d4e5f"
  = ["https://h/hook/0a1b2c3d-0a1b-0a1b-0a1b-0a1b2c3d4e5f";
     "https://h/hook"; "0a1b2c3d-0a1b-0a1b-0a1b-0a1b2c3d4e5f"].
Proof. vm_compute. reflexivity. Qed.

(** C10, as amended: for every non-empty value of FEISHU_WEBHOOK that holds
    no line feed, start-up assigns the whole value, a trailing UUID segment
    included, to the webhook base and the empty string to the default bot
    UUID: the greedy first group takes the whole text. *)
Theorem C10_webhook_never_split (env : gmap string string) (s : string) :
  env !! "FEISHU_WEBHOOK" = Some s ->
  s <> "" ->
  strings.contains s strings.LF = false ->
  regexp.FindStringSubmatch webhook_re s = [s; s; ""]
  /\ exists cfg, load_config env = Some cfg
                 /\ feishuWebhookBase cfg = s
                 /\ defaultBotUUID cfg = "".
Proof.
  intros Henv Hne Hnl.
  pose proof (webhook_re_greedy s Hnl) as Hre.
  split; [exact Hre|].
  unfold load_config, Getenv. rewrite Henv. cbn [default from_option]. unfold id. cbv zeta.
  destruct (decide (s <> "")) as [_|Hn]; [|contradiction].
  rewrite Hre. cbn [lookup list_lookup mbind option_bind fst snd].
  eexists. split; [reflexivity|]. split; reflexivity.
Qed.

Lemma C10_webhook_never_split_witness :
  let s := "https://open.feishu.cn/open-apis/bot/v2/hook/0a1b2c3d-0a1b-0a1b-0a1b-0a1b2c3d4e5f" in
  regexp.FindStringSubmatch webhook_re s = [s; s; ""]
  /\ exists cfg, load_config {[ "FEISHU_WEBHOOK" := s ]} = Some cfg
                 /\ feishuWebhookBase cfg = s
                 /\ defaultBotUUID cfg = "".
Proof.
  intros s.
  apply (C10_webhook_never_split {[ "FEISHU_WEBHOOK" := s ]} s).
  - reflexivity.
  - discriminate.
  - reflexivity.
Defined.

(** C10 as stated fails on a value with a line feed: [.] does not match
    it, nothing else of the pattern can, so there is no match, [matches] is
    nil and [matches[1]] panics. *)
Lemma C10_counterexample :
  let s := "https://h/hook" +:+ String strings.LF "" in
  s <> ""
  /\ regexp.FindStringSubmatch webhook_re s = []
  /\ load_config {[ "FEISHU_WEBHOOK" := s ]} = None.
Proof. repeat split; [discriminate | vm_compute; reflexivity ..]. Qed.

(** ** The handlers produce the shapes and nothing else *)

Lemma lookup_0_None {A} (l : list A) : l !! 0%nat = None -> l = [].
Proof. destruct l; [reflexivity | discriminate]. Qed.

Section GroupedShape.

Import Grouped GroupedRun.

Variable out : Outside.
Variable cfg : Config.
Variable c : Ctx Notification.t.
Variable n : Notification.t.

Lemma grouped_serve_served :
  BodyParser c = Ok n ->
  served out cfg c n (serve out cfg c).1 (serve out cfg c).2.
Proof.
  intros Hc.
  unfold serve, run, handler. unfold_ops. rewrite Hc.
  fold (title n) (description n) (destination cfg c).
  change (if decide (openaiBaseURL cfg ≠ "") then _ else _) with (chat_config cfg).
  change (if decide (Notification.Status n = "resolved") then _ else _)
    with (color n).
  repeat case_match; simplify_eq; cbn [trace status app fst snd]; tidy_run.
  all: match goal with
       | Ht : openaiToken cfg = "" |- _ =>
           pose proof (enriched_skip cfg n Ht) as Henr
       | Ht : openaiToken cfg ≠ "", Hch : openai.Choices _ !! 0%nat = Some _ |- _ =>
           pose proof (enriched_reply cfg n _ _ Ht Hch) as Henr
       | Ht : openaiToken cfg ≠ "", Hch : openai.Choices _ !! 0%nat = None |- _ =>
           exact (served_no_choice out cfg c n _ Ht (lookup_0_None _ Hch))
       | Ht : openaiToken cfg ≠ "" |- context [EvChat _ _ (Err ?err)] =>
           pose proof (enriched_fail cfg n err Ht) as Henr
       end.
  all: match goal with
       | Hurl : url_accepted _ _ = false |- _ =>
           exact (served_nil_request out cfg c n _ _ Henr Hurl)
       | Hurl : url_accepted _ _ = true |- served _ _ _ _ (Replied None) _ =>
           exact (served_delivered out cfg c n _ _ _ Henr Hurl)
       | Hurl : url_accepted _ _ = true |- served _ _ _ _ (Replied (Some _)) _ =>
           exact (served_unreachable out cfg c n _ _ _ Henr Hurl)
       end.
Qed.

(** A body that does not parse: the handler returns the error at once. *)
Lemma grouped_serve_malformed (err : error) :
  BodyParser c = Err err ->
  serve out cfg c = (Replied (Some err), fresh).
Proof. intros Hc. unfold serve, run, handler. unfold_ops. now rewrite Hc. Qed.

End GroupedShape.

Section PerAlertShape.

Import PerAlert PerAlertRun.

Variable out : Outside.
Variable cfg : Config.
Variable c : Ctx Notification.t.

Lemma each_alert_turn (alert : Alert.t) (w : World) :
  exists evs r,
    each_alert out cfg c alert w
    = (r, {| trace := trace w ++ evs; status := status w |})
    /\ turn out cfg c alert evs r.
Proof.
  destruct w as [tr st]. unfold each_alert. unfold_ops.
  fold (title alert) (description alert) (destination cfg c).
  change (if decide (openaiBaseURL cfg ≠ "") then _ else _) with (chat_config cfg).
  change (if decide (Alert.Status alert = "resolved") then _ else _)
    with (color alert).
  repeat case_match; simplify_eq; cbn [trace status fst snd]; tidy_run.
  all: rewrite <- ?app_assoc; cbn [app].
  all: first [ exists [], Panicked; split; [now rewrite app_nil_r|]
             | eexists _, _; split; [reflexivity|] ].
  all: match goal with
       | Ht : openaiToken cfg = "" |- _ =>
           pose proof (enriched_skip cfg alert Ht) as Henr
       | Ht : openaiToken cfg ≠ "", Hch : openai.Choices _ !! 0%nat = Some _ |- _ =>
           pose proof (enriched_reply cfg alert _ _ Ht Hch) as Henr
       | Ht : openaiToken cfg ≠ "", Hch : openai.Choices _ !! 0%nat = None |- _ =>
           exact (turn_no_choice out cfg c alert _ Ht (lookup_0_None _ Hch))
       | Ht : openaiToken cfg ≠ "" |- context [EvChat _ _ (Err ?err)] =>
           pose proof (enriched_fail cfg alert err Ht) as Henr
       end.
  all: match goal with
       | Hurl : url_accepted _ _ = false |- _ =>
           exact (turn_nil_request out cfg c alert _ _ Henr Hurl)
       | Hurl : url_accepted _ _ = true |- turn _ _ _ _ _ (Continue tt) =>
           exact (turn_delivered out cfg c alert _ _ _ Henr Hurl)
       | Hurl : url_accepted _ _ = true |- turn _ _ _ _ _ (Returned (Some _)) =>
           exact (turn_unreachable out cfg c alert _ _ _ Henr Hurl)
       end.
Qed.

Lemma range_turns (alerts : list Alert.t) :
  forall w : World,
  exists evs r,
    range alerts (each_alert out cfg c) w
    = (r, {| trace := trace w ++ evs; status := status w |})
    /\ turns out cfg c alerts evs r.
Proof.
  induction alerts as [|alert rest IH]; intros w.
  - exists [], (Continue tt). split; [|constructor].
    cbn. rewrite app_nil_r. now destruct w.
  - destruct (each_alert_turn alert w) as (evs & r & Hrun & Hturn).
    cbn [range]. unfold mbind, M_bind at 1. rewrite Hrun.
    destruct r as [[]|err|].
    + destruct (IH {| trace := trace w ++ evs; status := status w |})
        as (evs' & r' & Hrest & Hturns).
      exists (evs ++ evs')%list, r'. split.
      * rewrite Hrest. cbn [trace status]. now rewrite app_assoc.
      * now apply turns_next.
    + exists evs, (Returned err). split; [reflexivity|].
      now apply turns_stop.
    + exists evs, Panicked. split; [reflexivity|].
      now apply turns_stop.
Qed.

Lemma peralert_serve_served (n : Notification.t) :
  BodyParser c = Ok n ->
  served out cfg c (Notification.Alerts n) (serve out cfg c).1 (serve out cfg c).2.
Proof.
  intros Hc. unfold serve, run, handler, try. rewrite Hc. unfold_ops.
  destruct (Notification.Alerts n) as [|alert rest] eqn:Halerts.
  - destruct (decide (length (@nil Alert.t) = 0%nat)) as [_|Hlen]; [|done].
    cbn [fst snd]. now constructor.
  - set (alerts := alert :: rest) in *.
    assert (Hne : alerts ≠ []) by discriminate.
    destruct (decide (length alerts = 0%nat)) as [Hlen|_]; [discriminate|].
    destruct (range_turns alerts fresh) as (evs & r & Hrange & Hturns).
    rewrite Hrange. cbn [trace status fresh app] in *.
    destruct r as [[]|err|]; cbn [fst snd trace status].
    + now apply served_all.
    + now apply served_error.
    + now apply served_panic.
Qed.

Lemma peralert_serve_malformed (err : error) :
  BodyParser c = Err err ->
  serve out cfg c = (Replied (Some err), fresh).
Proof. intros Hc. unfold serve, run, handler. unfold_ops. now rewrite Hc. Qed.

End PerAlertShape.

(** ** Reading the shapes *)

Lemma posts_app (evs evs' : list Event) :
  posts (evs ++ evs') = (posts evs ++ posts evs')%list.
Proof.
  induction evs as [|ev evs IH]; [reflexivity|].
  destruct ev; cbn [app posts]; now rewrite IH.
Qed.

Lemma chats_app (evs evs' : list Event) :
  chats (evs ++ evs') = (chats evs ++ chats evs')%list.
Proof.
  induction evs as [|ev evs IH]; [reflexivity|].
  destruct ev; cbn [app chats]; now rewrite IH.
Qed.

Section GroupedFacts.

Import Grouped GroupedRun.

Variable out : Outside.
Variable cfg : Config.
Variable c : Ctx Notification.t.
Variable n : Notification.t.

Lemma grouped_enriched_posts evs d : enriched cfg n evs d -> posts evs = [].
Proof. now destruct 1. Qed.

Lemma grouped_enriched_chats evs d :
  enriched cfg n evs d ->
  (openaiToken cfg = "" /\ evs = [] /\ d = description n)
  \/ (openaiToken cfg ≠ "" /\ exists reply, chats evs = [chat_request cfg n]
      /\ EvChat (chat_config cfg) (chat_request cfg n) reply ∈ evs
      /\ forall config request reply',
           EvChat config request reply' ∈ evs ->
           reply' = reply
           /\ match reply with
              | Err err => d = "OpenAI API call failed: " +:+ Error err
              | Ok resp =>
                  exists choice, openai.Choices resp !! 0%nat = Some choice
                    /\ d = strip (openai.Content (openai.Message choice))
              end).
Proof.
  destruct 1 as [Ht | err Ht | resp choice Ht Hch]; [left; done | right ..].
  - split; [done|]. exists (Err err). split; [done|].
    split; [set_solver|]. intros ? ? ? H. in_list H. done.
  - split; [done|]. exists (Ok resp). split; [done|].
    split; [set_solver|]. intros ? ? ? H. in_list H. eauto.
Qed.

(** The deliveries of a request: none, or one, to the destination, of the
    card with the title and the colour of the notification. *)
Lemma grouped_served_posts o w :
  served out cfg c n o w ->
  (o = Crashed /\ posts (trace w) = [] /\ status w = 200)
  \/ exists evs d reply,
       enriched cfg n evs d
       /\ url_accepted out (destination cfg c) = true
       /\ trace w = (evs ++ EvLog (LogCardJSON (make_card (title n) (color n) d))
                         :: EvPost (post_request cfg c n d) reply
                         :: match reply with
                            | Ok resp => [EvLog (LogResponseBody (http.ResponseBody resp))]
                            | Err _ => []
                            end)%list
       /\ posts (trace w) = [(destination cfg c, make_card (title n) (color n) d)]
       /\ o = Replied (match reply with Ok _ => None | Err err => Some err end)
       /\ status w = match reply with Ok _ => 204 | Err _ => 200 end.
Proof.
  destruct 1 as [resp Ht Hch | evs d Henr Hurl | evs d err Henr Hurl
                | evs d resp Henr Hurl]; cbn [trace status].
  - left. done.
  - left. rewrite posts_app, (grouped_enriched_posts _ _ Henr). done.
  - right. exists evs, d, (Err err).
    rewrite posts_app, (grouped_enriched_posts _ _ Henr). done.
  - right. exists evs, d, (Ok resp).
    rewrite posts_app, (grouped_enriched_posts _ _ Henr). done.
Qed.

Lemma grouped_cards pc :
  BodyParser c = Ok n ->
  pc ∈ posts (trace (serve out cfg c).2) ->
  exists d, pc = (destination cfg c, make_card (title n) (color n) d)
            /\ (openaiToken cfg = "" -> d = description n).
Proof.
  intros Hc Hpc.
  destruct (grouped_served_posts _ _ (grouped_serve_served out cfg c n Hc))
    as [(_ & Hposts & _) | (evs & d & reply & Henr & _ & _ & Hposts & _)];
    rewrite Hposts in Hpc; in_list Hpc.
  exists d. split; [done|]. intros Ht.
  destruct (grouped_enriched_chats _ _ Henr) as [(_ & _ & ->) | (Hne & _)]; done.
Qed.

Lemma grouped_success :
  BodyParser c = Ok n ->
  (serve out cfg c).1 = Replied None ->
  exists pc, posts (trace (serve out cfg c).2) = [pc]
             /\ status (serve out cfg c).2 = 204.
Proof.
  intros Hc Ho.
  destruct (grouped_served_posts _ _ (grouped_serve_served out cfg c n Hc))
    as [(Hcr & _) | (evs & d & reply & _ & _ & _ & Hposts & Hout & Hst)].
  - rewrite Hcr in Ho. discriminate.
  - rewrite Hout in Ho. destruct reply; [|discriminate]. eauto.
Qed.

End GroupedFacts.

Section PerAlertFacts.

Import PerAlert PerAlertRun.

Variable out : Outside.
Variable cfg : Config.
Variable c : Ctx Notification.t.

Lemma peralert_enriched_posts alert evs d :
  enriched cfg alert evs d -> posts evs = [].
Proof. now destruct 1. Qed.

Lemma peralert_enriched_skip alert evs d :
  openaiToken cfg = "" -> enriched cfg alert evs d ->
  evs = [] /\ d = description alert.
Proof. intros Ht. now destruct 1. Qed.

Lemma turn_posts alert evs r :
  turn out cfg c alert evs r ->
  (r = Panicked /\ posts evs = [])
  \/ (r ≠ Panicked /\ exists pc, posts evs = [pc] /\ card_for cfg c alert pc).
Proof.
  destruct 1 as [resp Ht Hch | evs d Henr Hurl | evs d err Henr Hurl
                | evs d resp Henr Hurl].
  - left. done.
  - left. now rewrite (peralert_enriched_posts _ _ _ Henr).
  - right. split; [done|]. eexists. rewrite posts_app,
      (peralert_enriched_posts _ _ _ Henr). split; [reflexivity|].
    exists d. split; [done|]. intros Ht.
    now destruct (peralert_enriched_skip _ _ _ Ht Henr).
  - right. split; [done|]. eexists. rewrite posts_app,
      (peralert_enriched_posts _ _ _ Henr). split; [reflexivity|].
    exists d. split; [done|]. intros Ht.
    now destruct (peralert_enriched_skip _ _ _ Ht Henr).
Qed.

(** The i-th card of a request is the card of its i-th alert. *)
Lemma turns_posts alerts evs r :
  turns out cfg c alerts evs r ->
  forall i alert pc,
    alerts !! i = Some alert -> posts evs !! i = Some pc -> card_for cfg c alert pc.
Proof.
  induction 1 as [| alert0 rest evs r Hturn Hr
                  | alert0 rest evs evs' r Hturn _ IH];
    intros i alert pc Ha Hp.
  - discriminate.
  - destruct (turn_posts _ _ _ Hturn) as [(_ & Hnone) | (_ & pc0 & Hone & Hcard)];
      rewrite ?Hnone, ?Hone in Hp; [discriminate|].
    destruct i; [|discriminate]. now simplify_eq/=.
  - rewrite posts_app in Hp.
    destruct (turn_posts _ _ _ Hturn) as [(? & _) | (_ & pc0 & Hone & Hcard)];
      [discriminate|].
    rewrite Hone in Hp. destruct i; simplify_eq/=; eauto.
Qed.

Lemma turns_posts_length alerts evs r :
  turns out cfg c alerts evs r ->
  (length (posts evs) <= length alerts)%nat
  /\ (r = Continue tt -> length (posts evs) = length alerts).
Proof.
  induction 1 as [| alert0 rest evs r Hturn Hr
                  | alert0 rest evs evs' r Hturn _ [IHle IHeq]].
  - done.
  - split; [|done].
    destruct (turn_posts _ _ _ Hturn) as [(_ & ->) | (_ & pc0 & -> & _)];
      cbn; lia.
  - rewrite posts_app.
    destruct (turn_posts _ _ _ Hturn) as [(? & _) | (_ & pc0 & -> & _)];
      [discriminate|].
    cbn. split; [lia|]. intros ->. now rewrite IHeq.
Qed.

Lemma turn_chats_skip alert evs r :
  openaiToken cfg = "" -> turn out cfg c alert evs r -> chats evs = [].
Proof.
  intros Ht.
  destruct 1 as [resp Hne Hch | evs d Henr Hurl | evs d err Henr Hurl
                | evs d resp Henr Hurl]; [done|..];
    destruct (peralert_enriched_skip _ _ _ Ht Henr) as [-> _]; done.
Qed.

Lemma turns_chats_skip alerts evs r :
  openaiToken cfg = "" -> turns out cfg c alerts evs r -> chats evs = [].
Proof.
  intros Ht.
  induction 1 as [| alert0 rest evs r Hturn Hr
                  | alert0 rest evs evs' r Hturn _ IH].
  - done.
  - eauto using turn_chats_skip.
  - rewrite chats_app, IH, (turn_chats_skip _ _ _ Ht Hturn). done.
Qed.

(** The trace of a request whose body parsed, whatever its outcome. *)
Lemma peralert_served_trace alerts o w :
  served out cfg c alerts o w ->
  (alerts = [] /\ trace w = [])
  \/ exists r, turns out cfg c alerts (trace w) r.
Proof.
  destruct 1; [left; done | right; eauto ..].
Qed.

Lemma peralert_cards (n : Notification.t) i alert pc :
  BodyParser c = Ok n ->
  Notification.Alerts n !! i = Some alert ->
  posts (trace (serve out cfg c).2) !! i = Some pc ->
  card_for cfg c alert pc.
Proof.
  intros Hc Ha Hp.
  destruct (peralert_served_trace _ _ _ (peralert_serve_served out cfg c n Hc))
    as [(_ & Hnil) | (r & Hturns)].
  - rewrite Hnil in Hp. discriminate.
  - eauto using turns_posts.
Qed.

(** The loop returns only the error of a delivery. *)
Lemma enriched_no_post alert evs d request reply :
  enriched cfg alert evs d -> EvPost request reply ∉ evs.
Proof. destruct 1; intros Hin; in_list Hin. Qed.

Lemma turn_post alert evs r request reply :
  turn out cfg c alert evs r ->
  EvPost request reply ∈ evs ->
  match reply with
  | Err err => r = Returned (Some err)
  | Ok resp => r = Continue tt
               /\ EvLog (LogResponseBody (http.ResponseBody resp)) ∈ evs
  end.
Proof.
  destruct 1 as [resp Ht Hch | evs d Henr Hurl | evs d err Henr Hurl
                | evs d resp Henr Hurl]; intros Hin.
  - in_list Hin.
  - now apply (enriched_no_post _ _ _ _ _ Henr) in Hin.
  - apply elem_of_app in Hin as [Hin|Hin];
      [now apply (enriched_no_post _ _ _ _ _ Henr) in Hin|].
    in_list Hin. done.
  - apply elem_of_app in Hin as [Hin|Hin];
      [now apply (enriched_no_post _ _ _ _ _ Henr) in Hin|].
    in_list Hin. split; [done|]. set_solver.
Qed.

Lemma turn_returned alert evs err :
  turn out cfg c alert evs (Returned err) ->
  exists e request, err = Some e /\ EvPost request (Err e) ∈ evs.
Proof.
  inversion 1; subst. eexists _, _. split; [done|]. list_mem.
Qed.

Lemma turns_post alerts evs r request reply :
  turns out cfg c alerts evs r ->
  EvPost request reply ∈ evs ->
  match reply with
  | Err err => r = Returned (Some err)
  | Ok resp => EvLog (LogResponseBody (http.ResponseBody resp)) ∈ evs
  end.
Proof.
  induction 1 as [| alert0 rest evs r Hturn Hr
                  | alert0 rest evs evs' r Hturn _ IH]; intros Hin.
  - in_list Hin.
  - pose proof (turn_post _ _ _ _ _ Hturn Hin) as Hp.
    destruct reply; [now destruct Hp | done].
  - apply elem_of_app in Hin as [Hin|Hin].
    + pose proof (turn_post _ _ _ _ _ Hturn Hin) as Hp.
      destruct reply as [resp|err]; [|discriminate Hp].
      destruct Hp as [_ Hlog]. list_mem.
    + specialize (IH Hin). destruct reply as [resp|err]; [list_mem | done].
Qed.

Lemma turns_returned alerts evs err :
  turns out cfg c alerts evs (Returned err) ->
  exists e request, err = Some e /\ EvPost request (Err e) ∈ evs.
Proof.
  remember (Returned err) as r eqn:Hr.
  induction 1 as [| alert0 rest evs r Hturn _
                  | alert0 rest evs evs' r Hturn _ IH]; subst.
  - discriminate.
  - eauto using turn_returned.
  - destruct (IH eq_refl) as (e & request & -> & Hin).
    exists e, request. split; [done|]. set_solver.
Qed.



End PerAlertFacts.

(** ** Facts about whole requests *)

Section Requests.

Variable out : Outside.
Variable cfg : Config.

Lemma grouped_chats_skip (c : Ctx Grouped.Notification.t) :
  openaiToken cfg = "" -> chats (trace (Grouped.serve out cfg c).2) = [].
Proof.
  intros Ht. destruct (BodyParser c) as [n|err] eqn:Hc.
  - destruct (grouped_served_posts _ _ _ _ _ _ (grouped_serve_served out cfg c n Hc))
      as [(Hcr & _) | (evs & d & reply & Henr & _ & Htr & _)].
    + pose proof (grouped_serve_served out cfg c n Hc) as Hs.
      rewrite Hcr in Hs. inversion Hs as [resp Hne | evs d Henr Hurl | |];
        [done|].
      destruct (grouped_enriched_chats _ _ _ _ Henr) as [(_ & -> & _) | (Hne & _)];
        done.
    + rewrite Htr.
      destruct (grouped_enriched_chats _ _ _ _ Henr) as [(_ & -> & _) | (Hne & _)];
        [|done].
      now destruct reply.
  - now rewrite (grouped_serve_malformed out cfg c err Hc).
Qed.

Lemma peralert_chats_skip (c : Ctx PerAlert.Notification.t) :
  openaiToken cfg = "" -> chats (trace (PerAlert.serve out cfg c).2) = [].
Proof.
  intros Ht. destruct (BodyParser c) as [n|err] eqn:Hc.
  - destruct (peralert_served_trace _ _ _ _ _ _
                (peralert_serve_served out cfg c n Hc)) as [(_ & ->) | (r & Hturns)];
      [done|].
    eauto using turns_chats_skip.
  - now rewrite (peralert_serve_malformed out cfg c err Hc).
Qed.

(** Every card of a per-alert request is the card of one of its alerts. *)
Lemma peralert_cards_mem (c : Ctx PerAlert.Notification.t) n pc :
  BodyParser c = Ok n ->
  pc ∈ posts (trace (PerAlert.serve out cfg c).2) ->
  exists alert, alert ∈ PerAlert.Notification.Alerts n /\ PerAlertRun.card_for cfg c alert pc.
Proof.
  intros Hc Hpc. apply list_elem_of_lookup in Hpc as [i Hi].
  destruct (peralert_served_trace _ _ _ _ _ _
              (peralert_serve_served out cfg c n Hc)) as [(_ & Hnil) | (r & Hturns)].
  - rewrite Hnil in Hi. discriminate.
  - pose proof (lookup_lt_Some _ _ _ Hi) as Hlt.
    destruct (turns_posts_length _ _ _ _ _ _ Hturns) as [Hle _].
    destruct (lookup_lt_is_Some_2 (PerAlert.Notification.Alerts n) i) as [alert Ha];
      [lia|].
    exists alert. split; [now apply list_elem_of_lookup_2 in Ha|].
    eauto using turns_posts.
Qed.

End Requests.

(** ** The claims *)

(** C1, as amended: in the grouped handler, whenever the commonAnnotations of
    the parsed notification hold the key "summary", the title of the card
    that is sent is that value, whatever the other fields hold, and a request
    that succeeds sent exactly one card.  The per-alert handler does not
    decode commonAnnotations: the card of an alert takes its title from the
    alert's own annotations["summary"] when that key is present. *)
Theorem C1_title_from_summary (out : Outside) (cfg : Config) :
  (forall (c : Ctx Grouped.Notification.t) n v,
      BodyParser c = Ok n ->
      Grouped.Notification.CommonAnnotations n !! "summary" = Some v ->
      (forall pc, pc ∈ posts (trace (Grouped.serve out cfg c).2) -> card_title pc.2 = v)
      /\ ((Grouped.serve out cfg c).1 = Replied None ->
          exists pc, posts (trace (Grouped.serve out cfg c).2) = [pc]))
  /\ (forall (c : Ctx PerAlert.Notification.t) n i alert v pc,
         BodyParser c = Ok n ->
         PerAlert.Notification.Alerts n !! i = Some alert ->
         PerAlert.Alert.Annotations alert !! "summary" = Some v ->
         posts (trace (PerAlert.serve out cfg c).2) !! i = Some pc ->
         card_title pc.2 = v).
Proof.
  split.
  - intros c n v Hc Hv. split.
    + intros pc Hpc.
      destruct (grouped_cards out cfg c n pc Hc Hpc) as (d & -> & _).
      cbn. unfold GroupedRun.title. now rewrite Hv.
    + intros Ho. destruct (grouped_success out cfg c n Hc Ho) as (pc & Hp & _).
      eauto.
  - intros c n i alert v pc Hc Ha Hv Hp.
    destruct (peralert_cards out cfg c n i alert pc Hc Ha Hp) as (d & -> & _).
    cbn. unfold PerAlertRun.title. now rewrite Hv.
Qed.

Lemma C1_title_from_summary_witness :
  let c := request_of cpu_high "abc" in
  posts (trace (Grouped.serve outside_up cfg_plain c).2)
  = [("https://x/hook/abc", make_card "CPU high" "red" "load avg 8.2")]
  /\ forall pc, pc ∈ posts (trace (Grouped.serve outside_up cfg_plain c).2) ->
                card_title pc.2 = "CPU high".
Proof.
  intros c. split; [vm_compute; reflexivity|].
  apply (proj1 (C1_title_from_summary outside_up cfg_plain) c cpu_high "CPU high").
  - reflexivity.
  - vm_compute. reflexivity.
Defined.

(** C1 as stated fails in the per-alert handler: the same body, with
    "CPU high" as commonAnnotations.summary, is answered with a card whose
    title is the summary of the alert. *)
Lemma C1_counterexample :
  let c := request_of (PerAlert.decode cpu_high) "abc" in
  Grouped.Notification.CommonAnnotations cpu_high !! "summary" = Some "CPU high"
  /\ posts (trace (PerAlert.serve outside_up cfg_plain c).2)
     = [("https://x/hook/abc", make_card "Disk full on db1" "green" "95% used")]
  /\ ~ (forall pc, pc ∈ posts (trace (PerAlert.serve outside_up cfg_plain c).2) ->
                   card_title pc.2 = "CPU high").
Proof.
  intros c.
  assert (Hposts : posts (trace (PerAlert.serve outside_up cfg_plain c).2)
                   = [("https://x/hook/abc",
                       make_card "Disk full on db1" "green" "95% used")])
    by (vm_compute; reflexivity).
  split; [vm_compute; reflexivity|]. split; [exact Hposts|].
  intros Hall. rewrite Hposts in Hall.
  specialize (Hall _ (proj2 (list_elem_of_singleton _ _) eq_refl)).
  discriminate Hall.
Qed.

(** The per-alert handler on a notification without alerts, in general: it
    returns nil at once, with no delivery and no enrichment call, and leaves
    the status of the response as it found it. *)
Lemma peralert_no_alerts (out : Outside) (cfg : Config)
    (c : Ctx PerAlert.Notification.t) (n : PerAlert.Notification.t) :
  BodyParser c = Ok n ->
  PerAlert.Notification.Alerts n = [] ->
  (PerAlert.serve out cfg c).1 = Replied None
  /\ posts (trace (PerAlert.serve out cfg c).2) = []
  /\ chats (trace (PerAlert.serve out cfg c).2) = []
  /\ status (PerAlert.serve out cfg c).2 = StatusOK.
Proof.
  intros Hc Hnil.
  pose proof (peralert_serve_served out cfg c n Hc) as Hs.
  rewrite Hnil in Hs.
  destruct (PerAlert.serve out cfg c) as [o w]. cbn [fst snd] in *.
  inversion Hs; subst; done.
Qed.

(** The other way out of the per-alert handler with nil: after the loop,
    through [c.SendStatus(204)]. *)
Lemma peralert_some_alerts_204 (out : Outside) (cfg : Config)
    (c : Ctx PerAlert.Notification.t) (n : PerAlert.Notification.t) :
  BodyParser c = Ok n ->
  PerAlert.Notification.Alerts n <> [] ->
  (PerAlert.serve out cfg c).1 = Replied None ->
  status (PerAlert.serve out cfg c).2 = 204.
Proof.
  intros Hc Hne Ho.
  pose proof (peralert_serve_served out cfg c n Hc) as Hs.
  destruct (PerAlert.serve out cfg c) as [o w]. cbn [fst snd] in *. subst o.
  inversion Hs as [Hnil | evs _ Hturns | evs err _ Hturns |]; subst.
  - contradiction.
  - reflexivity.
  - destruct (turns_returned _ _ _ _ _ _ Hturns) as (e & request & Hsome & _).
    discriminate Hsome.
Qed.

(** C2, on the code: for a notification without alerts the per-alert handler
    delivers no card and makes no enrichment call, as the claim has it, and
    returns nil; but it returns before [c.SendStatus(204)], so the response
    goes out with the status it started with, 200, where the claim has 204. *)
Theorem C2_no_alerts_status :
  let c := request_of (PerAlert.decode no_alerts) "abc" in
  PerAlert.Notification.Alerts (PerAlert.decode no_alerts) = []
  /\ (PerAlert.serve outside_up cfg_ai c).1 = Replied None
  /\ posts (trace (PerAlert.serve outside_up cfg_ai c).2) = []
  /\ chats (trace (PerAlert.serve outside_up cfg_ai c).2) = []
  /\ status (PerAlert.serve outside_up cfg_ai c).2 = 200
  /\ status (PerAlert.serve outside_up cfg_ai c).2 <> 204.
Proof.
  intros c.
  destruct (peralert_no_alerts outside_up cfg_ai c (PerAlert.decode no_alerts)
              eq_refl eq_refl) as (Ho & Hp & Hc & Hs).
  split; [reflexivity|]. split; [exact Ho|]. split; [exact Hp|].
  split; [exact Hc|]. rewrite Hs. split; [reflexivity | discriminate].
Qed.

(** With one alert in the payload the same handler answers 204. *)
Example some_alerts_status :
  let r := PerAlert.serve outside_up cfg_ai
             (request_of (PerAlert.decode cpu_high) "abc") in
  r.1 = Replied None /\ status r.2 = 204.
Proof. vm_compute. split; reflexivity. Qed.

(** C3, as amended: in per-alert mode, the card of every alert whose
    annotations lack "summary" and whose labels hold "alertname" has
    labels["alertname"] as its title.  The grouped handler reads no labels:
    when commonAnnotations lacks "summary", the title of its card is the
    title field of the notification. *)
Theorem C3_title_from_alertname (out : Outside) (cfg : Config) :
  (forall (c : Ctx PerAlert.Notification.t) n i alert x pc,
      BodyParser c = Ok n ->
      PerAlert.Notification.Alerts n !! i = Some alert ->
      PerAlert.Alert.Annotations alert !! "summary" = None ->
      PerAlert.Alert.Labels alert !! "alertname" = Some x ->
      posts (trace (PerAlert.serve out cfg c).2) !! i = Some pc ->
      card_title pc.2 = x)
  /\ (forall (c : Ctx Grouped.Notification.t) n pc,
         BodyParser c = Ok n ->
         Grouped.Notification.CommonAnnotations n !! "summary" = None ->
         pc ∈ posts (trace (Grouped.serve out cfg c).2) ->
         card_title pc.2 = Grouped.Notification.Title n).
Proof.
  split.
  - intros c n i alert x pc Hc Ha Hs Hl Hp.
    destruct (peralert_cards out cfg c n i alert pc Hc Ha Hp) as (d & -> & _).
    cbn. unfold PerAlertRun.title. now rewrite Hs, Hl.
  - intros c n pc Hc Hs Hpc.
    destruct (grouped_cards out cfg c n pc Hc Hpc) as (d & -> & _).
    cbn. unfold GroupedRun.title. now rewrite Hs.
Qed.

Lemma C3_title_from_alertname_witness :
  let c := request_of (PerAlert.decode only_alertname) "abc" in
  posts (trace (PerAlert.serve outside_up cfg_plain c).2)
  = [("https://x/hook/abc", make_card "DiskFull" "red" "[No description]")]
  /\ forall pc, posts (trace (PerAlert.serve outside_up cfg_plain c).2) !! 0%nat = Some pc ->
                card_title pc.2 = "DiskFull".
Proof.
  intros c. split; [vm_compute; reflexivity|]. intros pc.
  apply (proj1 (C3_title_from_alertname outside_up cfg_plain) c
               (PerAlert.decode only_alertname) 0%nat
               (PerAlert.decode_alert (alert_of "firing" {[ "alertname" := "DiskFull" ]} ∅))
               "DiskFull" pc).
  - reflexivity.
  - reflexivity.
  - vm_compute. reflexivity.
  - vm_compute. reflexivity.
Defined.

(** C3 as stated fails in the grouped handler: with "alertname" among the
    common labels, the group labels and the labels of the only alert, and
    no summary anywhere, the title is the title field of the notification. *)
Lemma C3_counterexample :
  let c := request_of only_alertname "abc" in
  Grouped.Notification.CommonAnnotations only_alertname !! "summary" = None
  /\ Grouped.Notification.CommonLabels only_alertname !! "alertname" = Some "DiskFull"
  /\ Forall (fun a => Grouped.Alert.Annotations a !! "summary" = None
                      /\ Grouped.Alert.Labels a !! "alertname" = Some "DiskFull")
            (Grouped.Notification.Alerts only_alertname)
  /\ posts (trace (Grouped.serve outside_up cfg_plain c).2)
     = [("https://x/hook/abc",
         make_card "[FIRING:1] from Grafana" "red" "message from Grafana")]
  /\ ~ (forall pc, pc ∈ posts (trace (Grouped.serve outside_up cfg_plain c).2) ->
                   card_title pc.2 = "DiskFull").
Proof.
  intros c.
  assert (Hposts : posts (trace (Grouped.serve outside_up cfg_plain c).2)
                   = [("https://x/hook/abc",
                       make_card "[FIRING:1] from Grafana" "red" "message from Grafana")])
    by (vm_compute; reflexivity).
  split; [vm_compute; reflexivity|]. split; [vm_compute; reflexivity|].
  split; [repeat constructor; vm_compute; reflexivity|].
  split; [exact Hposts|].
  intros Hall. rewrite Hposts in Hall.
  specialize (Hall _ (proj2 (list_elem_of_singleton _ _) eq_refl)).
  discriminate Hall.
Qed.

(** C5: when OPENAI_API_KEY is empty the enrichment step is skipped: a
    request makes no chat-completion call, and the description in every card
    is the one derived from the payload, unchanged. *)
Theorem C5_no_key_no_enrichment (out : Outside) (cfg : Config) :
  openaiToken cfg = "" ->
  (forall c : Ctx Grouped.Notification.t,
      chats (trace (Grouped.serve out cfg c).2) = []
      /\ forall n pc,
           BodyParser c = Ok n ->
           pc ∈ posts (trace (Grouped.serve out cfg c).2) ->
           card_texts pc.2
           = [match Grouped.Notification.CommonAnnotations n !! "description" with
              | Some description => description
              | None => Grouped.Notification.Message n
              end])
  /\ (forall c : Ctx PerAlert.Notification.t,
         chats (trace (PerAlert.serve out cfg c).2) = []
         /\ forall n i alert pc,
              BodyParser c = Ok n ->
              PerAlert.Notification.Alerts n !! i = Some alert ->
              posts (trace (PerAlert.serve out cfg c).2) !! i = Some pc ->
              card_texts pc.2
              = [match PerAlert.Alert.Annotations alert !! "description" with
                 | Some description => description
                 | None => "[No description]"
                 end]).
Proof.
  intros Ht. split; intros c; split.
  - now apply grouped_chats_skip.
  - intros n pc Hc Hpc.
    destruct (grouped_cards out cfg c n pc Hc Hpc) as (d & -> & Hd).
    now rewrite (Hd Ht).
  - now apply peralert_chats_skip.
  - intros n i alert pc Hc Ha Hp.
    destruct (peralert_cards out cfg c n i alert pc Hc Ha Hp) as (d & -> & Hd).
    now rewrite (Hd Ht).
Qed.

Lemma C5_no_key_no_enrichment_witness :
  let c := request_of cpu_high "abc" in
  chats (trace (Grouped.serve outside_up cfg_plain c).2) = []
  /\ posts (trace (Grouped.serve outside_up cfg_plain c).2)
     = [("https://x/hook/abc", make_card "CPU high" "red" "load avg 8.2")]
  /\ (forall pc, pc ∈ posts (trace (Grouped.serve outside_up cfg_plain c).2) ->
                 card_texts pc.2 = ["load avg 8.2"])
  /\ chats (trace (PerAlert.serve outside_up cfg_plain
                     (request_of (PerAlert.decode cpu_high) "abc")).2) = [].
Proof.
  intros c.
  pose proof (C5_no_key_no_enrichment outside_up cfg_plain eq_refl) as [Hg Hp].
  split; [exact (proj1 (Hg c))|].
  split; [vm_compute; reflexivity|].
  split; [|exact (proj1 (Hp (request_of (PerAlert.decode cpu_high) "abc")))].
  intros pc Hpc. exact (proj2 (Hg c) cpu_high pc eq_refl Hpc).
Defined.

(** With a key, the same request does call the model. *)
Example enrichment_with_key :
  chats (trace (Grouped.serve outside_up cfg_ai (request_of cpu_high "abc")).2)
  = [GroupedRun.chat_request cfg_ai cpu_high].
Proof. vm_compute. reflexivity. Qed.

(** C6: the fence stripping of the grouped handler turns the reply made of
    the lines "```markdown", "### X" and "```" into "### X": whenever the
    enrichment call of a request succeeds with that reply as the content of
    its first choice, the text of the card that is sent is "### X". *)
Theorem C6_fence_stripping (out : Outside) (cfg : Config)
    (c : Ctx Grouped.Notification.t) :
  strings.Trim (strings.Trim fenced_reply ("```markdown" +:+ String strings.LF ""))
               "```"
  = "### X"
  /\ forall config request resp choice pc,
       EvChat config request (Ok resp) ∈ trace (Grouped.serve out cfg c).2 ->
       openai.Choices resp !! 0%nat = Some choice ->
       openai.Content (openai.Message choice) = fenced_reply ->
       pc ∈ posts (trace (Grouped.serve out cfg c).2) ->
       card_texts pc.2 = ["### X"].
Proof.
  split; [vm_compute; reflexivity|].
  intros config request resp choice pc Hchat Hch Hcontent Hpc.
  destruct (BodyParser c) as [n|err] eqn:Hc;
    [|rewrite (grouped_serve_malformed out cfg c err Hc) in Hpc; in_list Hpc].
  destruct (grouped_served_posts _ _ _ _ _ _ (grouped_serve_served out cfg c n Hc))
    as [(_ & Hnone & _) | (evs & d & reply & Henr & _ & Htr & Hposts & _)];
    [rewrite Hnone in Hpc; in_list Hpc|].
  rewrite Hposts in Hpc. in_list Hpc. cbn.
  rewrite Htr in Hchat. apply elem_of_app in Hchat as [Hchat|Hchat];
    [|destruct reply; in_list Hchat].
  destruct (grouped_enriched_chats _ _ _ _ Henr)
    as [(_ & -> & _) | (_ & reply' & _ & _ & Hall)]; [in_list Hchat|].
  destruct (Hall _ _ _ Hchat) as [<- (choice' & Hch' & ->)].
  rewrite Hch in Hch'. injection Hch' as <-. rewrite Hcontent.
  vm_compute. reflexivity.
Qed.

Lemma C6_fence_stripping_witness :
  let c := request_of cpu_high "abc" in
  posts (trace (Grouped.serve outside_up cfg_ai c).2)
  = [("https://x/hook/abc", make_card "CPU high" "red" "### X")]
  /\ forall pc, pc ∈ posts (trace (Grouped.serve outside_up cfg_ai c).2) ->
                card_texts pc.2 = ["### X"].
Proof.
  intros c. split; [vm_compute; reflexivity|]. intros pc.
  apply (proj2 (C6_fence_stripping outside_up cfg_ai c)
               (GroupedRun.chat_config cfg_ai) (GroupedRun.chat_request cfg_ai cpu_high)
               (reply_with fenced_reply)
               {| openai.Message :=
                    {| openai.Role := "assistant"; openai.Content := fenced_reply |} |}
               pc).
  - apply (list_elem_of_lookup_2 _ 1%nat). vm_compute. reflexivity.
  - reflexivity.
  - reflexivity.
Defined.

(** The per-alert handler has no such step: the reply goes into the card
    with its fences. *)
Example peralert_keeps_fences :
  posts (trace (PerAlert.serve outside_up cfg_ai
                  (request_of (PerAlert.decode cpu_high) "abc")).2)
  = [("https://x/hook/abc", make_card "Disk full on db1" "green" fenced_reply)].
Proof. vm_compute. reflexivity. Qed.

Lemma post_in_posts (evs : list Event) request reply :
  EvPost request reply ∈ evs -> (http.URL request, http.Body request) ∈ posts evs.
Proof.
  induction evs as [|ev evs IH]; intros Hin; [in_list Hin|].
  apply elem_of_cons in Hin as [<-|Hin]; [cbn; list_mem|].
  destruct ev; cbn [posts]; list_mem.
Qed.

Section Deliveries.

Variable out : Outside.
Variable cfg : Config.





End Deliveries.

(** The per-alert handler on a chat call that failed: the card keeps
    "95% used". *)
Example peralert_keeps_description :
  let r := PerAlert.serve outside_ai_down cfg_ai
             (request_of (PerAlert.decode cpu_high) "abc") in
  r.1 = Replied None
  /\ posts (trace r.2)
     = [("https://x/hook/abc", make_card "Disk full on db1" "green" "95% used")].
Proof. vm_compute. split; reflexivity. Qed.

(** The bot of the path, and the configured default when the path has
    none. *)
Example destination_from_path :
  posts (trace (Grouped.serve outside_up cfg_ai (request_of cpu_high "abc")).2)
  = [("https://x/hook/abc", make_card "CPU high" "red" "### X")]
  /\ posts (trace (Grouped.serve outside_up cfg_ai (request_of cpu_high "")).2)
     = [("https://x/hook/bot0", make_card "CPU high" "red" "### X")].
Proof. split; vm_compute; reflexivity. Qed.

(** A destination that cannot be reached fails the request, in both
    handlers, with the error of the transport. *)
Example unreachable_fails_request :
  (Grouped.serve outside_unreachable cfg_plain (request_of cpu_high "abc")).1
  = Replied (Some {| Error := "dial tcp: no such host" |})
  /\ (PerAlert.serve outside_unreachable cfg_plain
        (request_of (PerAlert.decode cpu_high) "abc")).1
     = Replied (Some {| Error := "dial tcp: no such host" |}).
Proof. split; vm_compute; reflexivity. Qed.

(** * Further properties *)

(** ** [strings.Trim] and the fence stripping *)

Lemma append_cons (c : ascii) (s t : string) :
  String c s +:+ t = String c (s +:+ t).
Proof. reflexivity. Qed.

Lemma contains_app (a b : string) (c : ascii) :
  strings.contains (a +:+ b) c = strings.contains a c || strings.contains b c.
Proof.
  induction a as [|d a IH]; [reflexivity|].
  rewrite append_cons. cbn [strings.contains].
  destruct (Ascii.eqb c d); [reflexivity | exact IH].
Qed.

Lemma append_nil_r (s : string) : s +:+ "" = s.
Proof.
  induction s as [|c s IH]; [reflexivity | now rewrite append_cons, IH].
Qed.

Lemma append_assoc (a b c : string) : (a +:+ b) +:+ c = a +:+ (b +:+ c).
Proof.
  induction a as [|d a IH]; [reflexivity | now rewrite !append_cons, IH].
Qed.

Lemma last_byte_cons (c : ascii) (s : string) :
  s <> "" -> last_byte (String c s) = last_byte s.
Proof. destruct s; [contradiction | reflexivity]. Qed.

Lemma trimRight_spec (p : ascii -> bool) (s : string) :
  exists suf,
    s = strings.trimRightASCII s p +:+ suf
    /\ all_bytes p suf = true
    /\ byte_in p (last_byte (strings.trimRightASCII s p)) = false.
Proof.
  induction s as [|c s (suf & Heq & Hall & Hlast)].
  - exists "". done.
  - cbn [strings.trimRightASCII].
    destruct (strings.trimRightASCII s p) as [|d kept] eqn:Hkept.
    + change ("" +:+ suf) with suf in Heq. subst suf.
      destruct (p c) eqn:Hc.
      * exists (String c s). cbn [all_bytes]. now rewrite Hc, Hall.
      * exists s. cbn [last_byte byte_in]. now rewrite Hc.
    + exists suf. split; [now rewrite append_cons, <- Heq|]. split; [done|].
      now rewrite last_byte_cons.
Qed.

Lemma trimLeft_spec (p : ascii -> bool) (s : string) :
  exists pre,
    s = pre +:+ strings.trimLeftASCII s p
    /\ all_bytes p pre = true
    /\ byte_in p (first_byte (strings.trimLeftASCII s p)) = false.
Proof.
  induction s as [|c s (pre & Heq & Hall & Hfirst)].
  - exists "". done.
  - cbn [strings.trimLeftASCII]. destruct (p c) eqn:Hc.
    + exists (String c pre). cbn [all_bytes].
      rewrite append_cons, Hc, Hall, <- Heq. done.
    + exists "". cbn [first_byte byte_in]. now rewrite Hc.
Qed.

Lemma trimLeft_last (p : ascii -> bool) (s : string) :
  byte_in p (last_byte s) = false ->
  byte_in p (last_byte (strings.trimLeftASCII s p)) = false.
Proof.
  induction s as [|c s IH]; [done|]. intros Hlast.
  cbn [strings.trimLeftASCII]. destruct (p c) eqn:Hc; [|exact Hlast].
  destruct s as [|d s]; [done|]. apply IH. exact Hlast.
Qed.

Lemma trimRight_fixed (p : ascii -> bool) (s : string) :
  byte_in p (last_byte s) = false -> strings.trimRightASCII s p = s.
Proof.
  induction s as [|c s IH]; [done|]. intros Hlast.
  cbn [strings.trimRightASCII]. destruct s as [|d s].
  - cbn in *. now rewrite Hlast.
  - rewrite IH by exact Hlast. reflexivity.
Qed.

Lemma trimLeft_fixed (p : ascii -> bool) (s : string) :
  byte_in p (first_byte s) = false -> strings.trimLeftASCII s p = s.
Proof. destruct s as [|c s]; [done|]. cbn. now intros ->. Qed.

(** What [strings.Trim] gives is what is left of [s] between a run of
    cutset bytes at either end, and has no cutset byte at either end. *)
Lemma Trim_spec (s cutset : string) :
  exists pre suf,
    s = pre +:+ strings.Trim s cutset +:+ suf
    /\ all_bytes (strings.contains cutset) pre = true
    /\ all_bytes (strings.contains cutset) suf = true
    /\ byte_in (strings.contains cutset) (first_byte (strings.Trim s cutset)) = false
    /\ byte_in (strings.contains cutset) (last_byte (strings.Trim s cutset)) = false.
Proof.
  unfold strings.Trim.
  destruct (decide (s = "" ∨ cutset = "")) as [[->| ->]|_].
  - exists "", "". done.
  - exists "", "". rewrite append_nil_r.
    repeat split; [destruct s; reflexivity | ].
    destruct (last_byte s); reflexivity.
  - set (p := strings.contains cutset).
    destruct (trimRight_spec p s) as (suf & Heq & Hsuf & Hlast).
    destruct (trimLeft_spec p (strings.trimRightASCII s p)) as (pre & Heq' & Hpre & Hfirst).
    exists pre, suf. split; [|auto using trimLeft_last].
    rewrite <- append_assoc, <- Heq'. exact Heq.
Qed.

Lemma Trim_fixed (s cutset : string) :
  byte_in (strings.contains cutset) (first_byte s) = false ->
  byte_in (strings.contains cutset) (last_byte s) = false ->
  strings.Trim s cutset = s.
Proof.
  intros Hfirst Hlast. unfold strings.Trim.
  destruct (decide (s = "" ∨ cutset = "")); [reflexivity|].
  rewrite trimRight_fixed by exact Hlast. now apply trimLeft_fixed.
Qed.

(** A byte that is no cutset byte of the first call is none of the second:
    the second cutset is made of backquotes. *)
Lemma backquote_in_fence_cutset (o : option ascii) :
  byte_in (strings.contains fence_cutset) o = false ->
  byte_in (strings.contains "```") o = false.
Proof.
  destruct o as [c|]; [|done]. cbn [byte_in].
  change fence_cutset with (String "`"%char (String "`"%char (String "`"%char
                              ("markdown" +:+ String strings.LF "")))).
  cbn [strings.contains].
  destruct (Ascii.eqb c "`"); [discriminate | reflexivity].
Qed.

(** The second [strings.Trim] of the grouped handler finds nothing to cut. *)
Lemma strip_is_first_trim (content : string) :
  GroupedRun.strip content = strings.Trim content fence_cutset.
Proof.
  unfold GroupedRun.strip. fold fence_cutset.
  destruct (Trim_spec content fence_cutset) as (_ & _ & _ & _ & _ & Hfirst & Hlast).
  apply Trim_fixed; now apply backquote_in_fence_cutset.
Qed.

(** After a chat call that is answered with a first choice, the grouped
    handler posts what [strings.Trim] leaves of the content under the first
    cutset: the second call changes nothing, and the text of the card is the
    content without a run of cutset bytes (backquotes, the letters of
    "markdown" and line feeds) at either end, whether these bytes were a
    fence or the end of a word. *)
Theorem grouped_reply_is_trimmed (out : Outside) (cfg : Config)
    (c : Ctx Grouped.Notification.t) config request resp choice pc :
  EvChat config request (Ok resp) ∈ trace (Grouped.serve out cfg c).2 ->
  openai.Choices resp !! 0%nat = Some choice ->
  pc ∈ posts (trace (Grouped.serve out cfg c).2) ->
  let content := openai.Content (openai.Message choice) in
  let text := strings.Trim content fence_cutset in
  card_texts pc.2 = [text]
  /\ strings.Trim text "```" = text
  /\ byte_in (strings.contains fence_cutset) (first_byte text) = false
  /\ byte_in (strings.contains fence_cutset) (last_byte text) = false
  /\ exists pre suf,
       content = pre +:+ text +:+ suf
       /\ all_bytes (strings.contains fence_cutset) pre = true
       /\ all_bytes (strings.contains fence_cutset) suf = true.
Proof.
  intros Hchat Hch Hpc content text.
  destruct (Trim_spec content fence_cutset)
    as (pre & suf & Heq & Hpre & Hsuf & Hfirst & Hlast).
  fold text in Heq, Hfirst, Hlast.
  assert (Hstrip : GroupedRun.strip content = text) by apply strip_is_first_trim.
  split; [|split; [|eauto 10]].
  - destruct (BodyParser c) as [n|err] eqn:Hc;
      [|rewrite (grouped_serve_malformed out cfg c err Hc) in Hpc; in_list Hpc].
    destruct (grouped_served_posts _ _ _ _ _ _ (grouped_serve_served out cfg c n Hc))
      as [(_ & Hnone & _) | (evs & d & reply & Henr & _ & Htr & Hposts & _)];
      [rewrite Hnone in Hpc; in_list Hpc|].
    rewrite Hposts in Hpc. in_list Hpc. cbn.
    rewrite Htr in Hchat. apply elem_of_app in Hchat as [Hchat|Hchat];
      [|destruct reply; in_list Hchat].
    destruct (grouped_enriched_chats _ _ _ _ Henr)
      as [(_ & -> & _) | (_ & reply' & _ & _ & Hall)]; [in_list Hchat|].
    destruct (Hall _ _ _ Hchat) as [<- (choice' & Hch' & ->)].
    rewrite Hch in Hch'. injection Hch' as <-. now rewrite <- Hstrip.
  - apply Trim_fixed; now apply backquote_in_fence_cutset.
Qed.

Lemma grouped_reply_is_trimmed_witness :
  let c := request_of cpu_high "abc" in
  posts (trace (Grouped.serve outside_daemon cfg_ai c).2)
  = [("https://x/hook/abc", make_card "CPU high" "red" "### Restart the dae")]
  /\ forall pc, pc ∈ posts (trace (Grouped.serve outside_daemon cfg_ai c).2) ->
                card_texts pc.2 = ["### Restart the dae"].
Proof.
  intros c. split; [vm_compute; reflexivity|]. intros pc Hpc.
  refine (proj1 (grouped_reply_is_trimmed outside_daemon cfg_ai c
                   (GroupedRun.chat_config cfg_ai)
                   (GroupedRun.chat_request cfg_ai cpu_high)
                   (reply_with ("```markdown" +:+ String strings.LF "### Restart the daemon"
                                +:+ String strings.LF "```"))
                   {| openai.Message :=
                        {| openai.Role := "assistant";
                           openai.Content :=
                             "```markdown" +:+ String strings.LF "### Restart the daemon"
                             +:+ String strings.LF "```" |} |}
                   pc _ _ Hpc)).
  - apply (list_elem_of_lookup_2 _ 1%nat). vm_compute. reflexivity.
  - reflexivity.
Defined.

Section PerAlertMore.

Import PerAlert PerAlertRun.

Variable out : Outside.
Variable cfg : Config.
Variable c : Ctx Notification.t.

Lemma enriched_event alert evs d ev :
  enriched cfg alert evs d -> ev ∈ evs -> turn_event cfg c alert ev.
Proof.
  destruct 1 as [Ht | err Ht | resp choice Ht Hch]; intros Hin; in_list Hin;
    left; eauto.
Qed.

Lemma turn_events alert evs r ev :
  turn out cfg c alert evs r -> ev ∈ evs -> turn_event cfg c alert ev.
Proof.
  destruct 1 as [resp Ht Hch | evs d Henr Hurl | evs d err Henr Hurl
                | evs d resp Henr Hurl]; intros Hin.
  - in_list Hin. left. eauto.
  - eauto using enriched_event.
  - apply elem_of_app in Hin as [Hin|Hin]; [eauto using enriched_event|].
    in_list Hin. right. left. eauto.
  - apply elem_of_app in Hin as [Hin|Hin]; [eauto using enriched_event|].
    in_list Hin; right; [left | right]; eauto.
Qed.

Lemma turns_events alerts evs r ev :
  turns out cfg c alerts evs r -> ev ∈ evs ->
  exists alert, alert ∈ alerts /\ turn_event cfg c alert ev.
Proof.
  induction 1 as [| alert0 rest evs r Hturn Hr
                  | alert0 rest evs evs' r Hturn _ IH]; intros Hin.
  - in_list Hin.
  - exists alert0. split; [list_mem | eauto using turn_events].
  - apply elem_of_app in Hin as [Hin|Hin].
    + exists alert0. split; [list_mem | eauto using turn_events].
    + destruct (IH Hin) as (alert & Ha & Hev). exists alert. split; [list_mem | done].
Qed.

Lemma turn_chat_replied alert evs r i config request resp choice :
  turn out cfg c alert evs r ->
  evs !! i = Some (EvChat config request (Ok resp)) ->
  openai.Choices resp !! 0%nat = Some choice ->
  url_accepted out (destination cfg c) = true ->
  request = chat_request cfg alert
  /\ exists reply,
       evs !! S i
       = Some (EvPost (post_request cfg c alert (openai.Content (openai.Message choice)))
                      reply).
Proof.
  destruct 1 as [resp' Ht Hch' | evs d Henr Hurl | evs d e Henr Hurl
                | evs d resp' Henr Hurl]; intros Hi Hch Hok.
  - destruct i; simplify_eq/=. rewrite Hch' in Hch. discriminate Hch.
  - congruence.
  - destruct Henr; destruct i as [|[|[|]]]; simplify_eq/=; eauto.
  - destruct Henr; destruct i as [|[|[|]]]; simplify_eq/=; eauto.
Qed.

Lemma turns_chat_replied alerts evs r :
  turns out cfg c alerts evs r ->
  forall i config request resp choice,
    evs !! i = Some (EvChat config request (Ok resp)) ->
    openai.Choices resp !! 0%nat = Some choice ->
    url_accepted out (destination cfg c) = true ->
    exists alert reply,
      alert ∈ alerts
      /\ request = chat_request cfg alert
      /\ evs !! S i
         = Some (EvPost (post_request cfg c alert
                           (openai.Content (openai.Message choice))) reply).
Proof.
  induction 1 as [| alert0 rest evs r Hturn Hr
                  | alert0 rest evs evs' r Hturn _ IH];
    intros i config request resp choice Hi Hch Hok.
  - discriminate.
  - destruct (turn_chat_replied _ _ _ _ _ _ _ _ Hturn Hi Hch Hok) as (-> & reply & Hn).
    exists alert0, reply. split; [list_mem | done].
  - destruct (decide (i < length evs)%nat) as [Hlt|Hge].
    + rewrite lookup_app_l in Hi by done.
      destruct (turn_chat_replied _ _ _ _ _ _ _ _ Hturn Hi Hch Hok)
        as (-> & reply & Hn).
      exists alert0, reply. split; [list_mem|]. split; [done|].
      now apply lookup_app_l_Some.
    + rewrite lookup_app_r in Hi by lia.
      destruct (IH _ _ _ _ _ Hi Hch Hok) as (alert & reply & Hin & -> & Hn).
      exists alert, reply. split; [list_mem|]. split; [done|].
      rewrite lookup_app_r by lia.
      now replace (S i - length evs)%nat with (S (i - length evs)) by lia.
Qed.

(** A turn that ends in a panic or in an error is the last: its last event
    is the last of the request. *)
Lemma turns_last alerts evs r :
  turns out cfg c alerts evs r ->
  match r with
  | Returned err =>
      exists e request pre, err = Some e /\ evs = (pre ++ [EvPost request (Err e)])%list
  | _ => True
  end.
Proof.
  induction 1 as [| alert0 rest evs r Hturn Hr
                  | alert0 rest evs evs' r Hturn _ IH].
  - done.
  - destruct Hturn; try done. eauto.
  - destruct r as [|err|]; try done.
    destruct IH as (e & request & pre & -> & ->).
    exists e, request, (evs ++ pre)%list. now rewrite app_assoc.
Qed.

(** The chat calls and the deliveries of a loop, counted. *)
Lemma turn_counts alert evs r :
  turn out cfg c alert evs r ->
  (length (chats evs) <= 1)%nat
  /\ ((length (posts evs) <= length (chats evs))%nat \/ openaiToken cfg = "")
  /\ (openaiToken cfg ≠ "" -> r = Continue tt -> length (chats evs) = 1%nat).
Proof.
  destruct 1 as [resp Ht Hch | evs d Henr Hurl | evs d err Henr Hurl
                | evs d resp Henr Hurl]; [cbn; auto with lia|..];
    destruct Henr; rewrite ?chats_app, ?posts_app; cbn; auto with lia;
    (split; [lia|]; split; [auto with lia|]; intros; congruence).
Qed.

Lemma turns_counts alerts evs r :
  turns out cfg c alerts evs r ->
  (length (chats evs) <= length alerts)%nat
  /\ ((length (posts evs) <= length (chats evs))%nat \/ openaiToken cfg = "")
  /\ (openaiToken cfg ≠ "" -> r = Continue tt -> length (chats evs) = length alerts).
Proof.
  induction 1 as [| alert0 rest evs r Hturn Hr
                  | alert0 rest evs evs' r Hturn _ (IH1 & IH2 & IH3)].
  - cbn. auto with lia.
  - destruct (turn_counts _ _ _ Hturn) as (H1 & H2 & H3). cbn [length].
    split; [lia|]. split; [done|]. intros _ ->. done.
  - destruct (turn_counts _ _ _ Hturn) as (H1 & H2 & H3).
    rewrite chats_app, posts_app, !length_app. cbn [length].
    split; [lia|]. split.
    + destruct H2 as [H2|H2], IH2 as [IH2|IH2]; auto with lia.
    + intros Ht ->. rewrite (H3 Ht eq_refl), (IH3 Ht eq_refl). lia.
Qed.

End PerAlertMore.

Section MoreRequests.

Variable out : Outside.
Variable cfg : Config.

Lemma grouped_chat_event (c : Ctx Grouped.Notification.t) n config request reply :
  BodyParser c = Ok n ->
  EvChat config request reply ∈ trace (Grouped.serve out cfg c).2 ->
  openaiToken cfg ≠ ""
  /\ config = GroupedRun.chat_config cfg
  /\ request = GroupedRun.chat_request cfg n.
Proof.
  intros Hc Hin.
  pose proof (grouped_serve_served out cfg c n Hc) as Hs.
  destruct (Grouped.serve out cfg c) as [o w]. cbn [fst snd] in *.
  destruct Hs as [resp Ht Hch | evs d Henr Hno | evs d e Henr _
                 | evs d resp Henr _]; cbn [trace] in *.
  - in_list Hin. done.
  - apply elem_of_app in Hin as [Hin|Hin]; [|in_list Hin].
    destruct Henr; in_list Hin; done.
  - apply elem_of_app in Hin as [Hin|Hin]; [|in_list Hin].
    destruct Henr; in_list Hin; done.
  - apply elem_of_app in Hin as [Hin|Hin]; [|in_list Hin].
    destruct Henr; in_list Hin; done.
Qed.

Lemma grouped_chats_count (c : Ctx Grouped.Notification.t) :
  (length (chats (trace (Grouped.serve out cfg c).2)) <= 1)%nat.
Proof.
  destruct (BodyParser c) as [n|err] eqn:Hc;
    [|rewrite (grouped_serve_malformed out cfg c err Hc); cbn; lia].
  pose proof (grouped_serve_served out cfg c n Hc) as Hs.
  destruct (Grouped.serve out cfg c) as [o w]. cbn [fst snd] in *.
  destruct Hs as [resp Ht Hch | evs d Henr Hno | evs d e Henr _
                 | evs d resp Henr _]; cbn [trace]; [cbn; lia|..];
    destruct Henr; cbn; lia.
Qed.

Lemma grouped_post_event (c : Ctx Grouped.Notification.t) n request reply :
  BodyParser c = Ok n ->
  EvPost request reply ∈ trace (Grouped.serve out cfg c).2 ->
  exists d, request = GroupedRun.post_request cfg c n d.
Proof.
  intros Hc Hin.
  destruct (grouped_served_posts _ _ _ _ _ _ (grouped_serve_served out cfg c n Hc))
    as [(_ & Hnone & _) | (evs & d & reply' & Henr & _ & Htr & _)].
  - apply post_in_posts in Hin. rewrite Hnone in Hin. in_list Hin.
  - rewrite Htr in Hin. apply elem_of_app in Hin as [Hin|Hin].
    { apply post_in_posts in Hin.
      rewrite (grouped_enriched_posts _ _ _ _ Henr) in Hin. in_list Hin. }
    exists d. destruct reply'; in_list Hin; done.
Qed.

Lemma peralert_event (c : Ctx PerAlert.Notification.t) n ev :
  BodyParser c = Ok n ->
  ev ∈ trace (PerAlert.serve out cfg c).2 ->
  exists alert,
    alert ∈ PerAlert.Notification.Alerts n /\ PerAlertRun.turn_event cfg c alert ev.
Proof.
  intros Hc Hin.
  destruct (peralert_served_trace _ _ _ _ _ _
              (peralert_serve_served out cfg c n Hc)) as [(_ & Hnil) | (r & Hturns)].
  - rewrite Hnil in Hin. in_list Hin.
  - eauto using turns_events.
Qed.

End MoreRequests.

(** After a chat call that is answered with a first choice, the per-alert
    handler posts, as its next step, the card of the alert with the content
    of that choice as its text, byte for byte (given that [http.NewRequest]
    accepts the destination). *)
Theorem peralert_reply_is_verbatim (out : Outside) (cfg : Config)
    (c : Ctx PerAlert.Notification.t) n i config request resp choice :
  BodyParser c = Ok n ->
  trace (PerAlert.serve out cfg c).2 !! i = Some (EvChat config request (Ok resp)) ->
  openai.Choices resp !! 0%nat = Some choice ->
  url_accepted out (feishuWebhookBase cfg +:+ "/" +:+ Params c (defaultBotUUID cfg))
  = true ->
  exists alert post reply,
    alert ∈ PerAlert.Notification.Alerts n
    /\ request = PerAlertRun.chat_request cfg alert
    /\ trace (PerAlert.serve out cfg c).2 !! S i = Some (EvPost post reply)
    /\ card_texts (http.Body post) = [openai.Content (openai.Message choice)]
    /\ card_title (http.Body post) = PerAlertRun.title alert.
Proof.
  intros Hc Hi Hch Hurl.
  destruct (peralert_served_trace _ _ _ _ _ _
              (peralert_serve_served out cfg c n Hc)) as [(_ & Hnil) | (r & Hturns)].
  - rewrite Hnil in Hi. discriminate.
  - destruct (turns_chat_replied _ _ _ _ _ _ Hturns _ _ _ _ _ Hi Hch Hurl)
      as (alert & reply & Hin & Hreq & Hnext).
    exists alert, (PerAlertRun.post_request cfg c alert
                     (openai.Content (openai.Message choice))), reply.
    done.
Qed.

Lemma peralert_reply_is_verbatim_witness :
  let c := request_of (PerAlert.decode cpu_high) "abc" in
  exists alert post reply,
    alert ∈ PerAlert.Notification.Alerts (PerAlert.decode cpu_high)
    /\ trace (PerAlert.serve outside_up cfg_ai c).2 !! 1%nat = Some (EvPost post reply)
    /\ card_texts (http.Body post) = [fenced_reply]
    /\ card_title (http.Body post) = PerAlertRun.title alert.
Proof.
  intros c.
  set (alert := PerAlert.decode_alert
                  (alert_of "resolved" {[ "alertname" := "DiskFull" ]}
                     {[ "summary" := "Disk full on db1"; "description" := "95% used" ]})).
  set (choice := {| openai.Message :=
                      {| openai.Role := "assistant"; openai.Content := fenced_reply |} |}).
  assert (Hi : trace (PerAlert.serve outside_up cfg_ai c).2 !! 0%nat
               = Some (EvChat (PerAlertRun.chat_config cfg_ai)
                              (PerAlertRun.chat_request cfg_ai alert)
                              (Ok (reply_with fenced_reply))))
    by (vm_compute; reflexivity).
  destruct (peralert_reply_is_verbatim outside_up cfg_ai c (PerAlert.decode cpu_high)
              0%nat _ _ _ choice eq_refl Hi eq_refl eq_refl)
    as (alert' & post & reply & Hin & _ & Hnext & Htexts & Htitle).
  exists alert', post, reply. done.
Defined.

(** A body that [c.BodyParser] refuses ends the request at once, in both
    handlers: the parse error is what the handler returns, nothing is sent
    to the model or to the destination, nothing is logged, and the status of
    the response is left alone. *)
Theorem malformed_body_is_returned (out : Outside) (cfg : Config) (err : error) :
  (forall c : Ctx Grouped.Notification.t,
      BodyParser c = Err err ->
      (Grouped.serve out cfg c).1 = Replied (Some err)
      /\ trace (Grouped.serve out cfg c).2 = []
      /\ status (Grouped.serve out cfg c).2 = StatusOK)
  /\ (forall c : Ctx PerAlert.Notification.t,
         BodyParser c = Err err ->
         (PerAlert.serve out cfg c).1 = Replied (Some err)
         /\ trace (PerAlert.serve out cfg c).2 = []
         /\ status (PerAlert.serve out cfg c).2 = StatusOK).
Proof.
  split; intros c Hc.
  - now rewrite (grouped_serve_malformed out cfg c err Hc).
  - now rewrite (peralert_serve_malformed out cfg c err Hc).
Qed.

Lemma malformed_body_is_returned_witness :
  let err := {| Error := "invalid character '}' looking for beginning of value" |} in
  let c : Ctx Grouped.Notification.t := {| BodyParser := Err err; route_botUUID := "abc" |} in
  (Grouped.serve outside_up cfg_ai c).1 = Replied (Some err)
  /\ trace (Grouped.serve outside_up cfg_ai c).2 = []
  /\ status (Grouped.serve outside_up cfg_ai c).2 = StatusOK.
Proof.
  intros err c.
  apply (proj1 (malformed_body_is_returned outside_up cfg_ai err) c). reflexivity.
Defined.

(** Every delivery, of either handler, is a POST with the JSON content type
    whose body is an interactive card: a plain-text title, "red" or "green"
    as its template, and one [div] element holding one [lark_md] text. *)
Theorem deliveries_are_interactive_cards (out : Outside) (cfg : Config) :
  let well_formed (request : http.Request) :=
    http.Method request = "POST"
    /\ http.ContentType request = "application/json; charset=UTF-8"
    /\ FeishuCard.MsgType (http.Body request) = "interactive"
    /\ FeishuCardTextElement.Tag
         (FeishuCardHeader.Title
            (FeishuCardContent.Header (FeishuCard.Card (http.Body request))))
       = "plain_text"
    /\ (card_template (http.Body request) = "red"
        \/ card_template (http.Body request) = "green")
    /\ exists text,
         FeishuCardContent.Elements (FeishuCard.Card (http.Body request))
         = [ {| FeishuCardDivElement.Tag := "div";
                FeishuCardDivElement.Text :=
                  {| FeishuCardTextElement.Tag := "lark_md";
                     FeishuCardTextElement.Content := text |} |} ] in
  (forall (c : Ctx Grouped.Notification.t) request reply,
      EvPost request reply ∈ trace (Grouped.serve out cfg c).2 -> well_formed request)
  /\ (forall (c : Ctx PerAlert.Notification.t) request reply,
         EvPost request reply ∈ trace (PerAlert.serve out cfg c).2 ->
         well_formed request).
Proof.
  intros well_formed. split; intros c request reply Hin.
  - destruct (BodyParser c) as [n|err] eqn:Hc;
      [|rewrite (grouped_serve_malformed out cfg c err Hc) in Hin; in_list Hin].
    destruct (grouped_post_event out cfg c n request reply Hc Hin) as [d ->].
    unfold well_formed. cbn. unfold GroupedRun.color.
    destruct (decide _); eauto 10.
  - destruct (BodyParser c) as [n|err] eqn:Hc;
      [|rewrite (peralert_serve_malformed out cfg c err Hc) in Hin; in_list Hin].
    destruct (peralert_event out cfg c n _ Hc Hin)
      as (alert & _ & [(_ & r & Hev) | [(d & r & Hev) | (b & Hev)]]);
      try discriminate Hev.
    injection Hev as -> _.
    unfold well_formed. cbn. unfold PerAlertRun.color.
    destruct (decide _); eauto 10.
Qed.

Lemma deliveries_are_interactive_cards_witness :
  let c := request_of cpu_high "abc" in
  let request := GroupedRun.post_request cfg_plain c cpu_high "load avg 8.2" in
  trace (Grouped.serve outside_up cfg_plain c).2 !! 1%nat
  = Some (EvPost request (Ok {| http.StatusCode := 200; http.ResponseBody := "{}" |}))
  /\ http.Method request = "POST"
  /\ http.ContentType request = "application/json; charset=UTF-8".
Proof.
  intros c request.
  assert (Hi : trace (Grouped.serve outside_up cfg_plain c).2 !! 1%nat
               = Some (EvPost request
                         (Ok {| http.StatusCode := 200; http.ResponseBody := "{}" |})))
    by (vm_compute; reflexivity).
  split; [exact Hi|].
  destruct (proj1 (deliveries_are_interactive_cards outside_up cfg_plain) c request _
                  (list_elem_of_lookup_2 _ _ _ Hi)) as (Hm & Hct & _).
  split; assumption.
Defined.

(** Every chat-completion call carries the configured key and model, the
    base URL of OPENAI_BASE_URL when that is set and the default of the
    client otherwise, and two messages: the system prompt of the variant,
    then the description derived from the payload as the user message.  A
    call is only made with a key; the grouped handler makes at most one
    per request, the per-alert handler at most one per alert. *)
Theorem chat_calls_carry_prompt_and_description (out : Outside) (cfg : Config) :
  (forall (c : Ctx Grouped.Notification.t) n config request reply,
      BodyParser c = Ok n ->
      EvChat config request reply ∈ trace (Grouped.serve out cfg c).2 ->
      openaiToken cfg <> ""
      /\ openai.authToken config = openaiToken cfg
      /\ openai.BaseURL config
         = (if decide (openaiBaseURL cfg <> "") then openaiBaseURL cfg
            else "https://api.openai.com/v1")
      /\ openai.Model request = openaiModelName cfg
      /\ openai.Messages request
         = [ {| openai.Role := "system"; openai.Content := Grouped.systemPrompt |};
             {| openai.Role := "user";
                openai.Content :=
                  match Grouped.Notification.CommonAnnotations n !! "description" with
                  | Some description => description
                  | None => Grouped.Notification.Message n
                  end |} ]
      /\ (length (chats (trace (Grouped.serve out cfg c).2)) <= 1)%nat)
  /\ (forall (c : Ctx PerAlert.Notification.t) n config request reply,
         BodyParser c = Ok n ->
         EvChat config request reply ∈ trace (PerAlert.serve out cfg c).2 ->
         openaiToken cfg <> ""
         /\ openai.authToken config = openaiToken cfg
         /\ openai.BaseURL config
            = (if decide (openaiBaseURL cfg <> "") then openaiBaseURL cfg
               else "https://api.openai.com/v1")
         /\ openai.Model request = openaiModelName cfg
         /\ (exists alert,
                alert ∈ PerAlert.Notification.Alerts n
                /\ openai.Messages request
                   = [ {| openai.Role := "system";
                          openai.Content := PerAlert.systemPrompt |};
                       {| openai.Role := "user";
                          openai.Content :=
                            match PerAlert.Alert.Annotations alert !! "description" with
                            | Some description => description
                            | None => "[No description]"
                            end |} ])
         /\ (length (chats (trace (PerAlert.serve out cfg c).2))
             <= length (PerAlert.Notification.Alerts n))%nat).
Proof.
  split; intros c n config request reply Hc Hin.
  - destruct (grouped_chat_event out cfg c n _ _ _ Hc Hin) as (Ht & -> & ->).
    split; [exact Ht|]. unfold GroupedRun.chat_config.
    destruct (decide (openaiBaseURL cfg <> "")); cbn;
      repeat split; try reflexivity; apply grouped_chats_count.
  - destruct (peralert_event out cfg c n _ Hc Hin)
      as (alert & Ha & [(Ht & r & Hev) | [(d & r & Hev) | (b & Hev)]]);
      try discriminate Hev.
    injection Hev as -> -> _.
    split; [exact Ht|].
    assert (Hcount : (length (chats (trace (PerAlert.serve out cfg c).2))
                      <= length (PerAlert.Notification.Alerts n))%nat).
    { destruct (peralert_served_trace _ _ _ _ _ _
                  (peralert_serve_served out cfg c n Hc)) as [(_ & ->) | (r' & Hturns)];
        [cbn; lia|].
      apply (turns_counts _ _ _ _ _ _ Hturns). }
    unfold PerAlertRun.chat_config.
    destruct (decide (openaiBaseURL cfg <> "")); cbn;
      repeat split; try reflexivity; try exact Hcount; eauto.
Qed.

Lemma chat_calls_carry_prompt_and_description_witness :
  let c := request_of cpu_high "abc" in
  let cfg := {| feishuWebhookBase := "https://x/hook"; defaultBotUUID := "";
                openaiToken := "sk-test"; openaiBaseURL := "https://llm.local/v1";
                openaiModelName := "qwen" |} in
  exists config request reply,
    trace (Grouped.serve outside_up cfg c).2 !! 1%nat = Some (EvChat config request reply)
    /\ openai.authToken config = "sk-test"
    /\ openai.BaseURL config = "https://llm.local/v1"
    /\ openai.Model request = "qwen"
    /\ openai.Messages request
       = [ {| openai.Role := "system"; openai.Content := Grouped.systemPrompt |};
           {| openai.Role := "user"; openai.Content := "load avg 8.2" |} ].
Proof.
  intros c cfg.
  assert (Hi : trace (Grouped.serve outside_up cfg c).2 !! 1%nat
               = Some (EvChat (GroupedRun.chat_config cfg)
                              (GroupedRun.chat_request cfg cpu_high)
                              (Ok (reply_with fenced_reply))))
    by (vm_compute; reflexivity).
  destruct (proj1 (chat_calls_carry_prompt_and_description outside_up cfg)
                  c cpu_high _ _ _ eq_refl (list_elem_of_lookup_2 _ _ _ Hi))
    as (_ & Htok & Hbase & Hmodel & Hmsgs & _).
  eexists _, _, _. split; [exact Hi|]. repeat split; assumption.
Defined.

(** The whole title chain of the per-alert handler: the summary of the
    alert, else its alertname label, else the literal "[No Title]". *)
Theorem peralert_title_chain (out : Outside) (cfg : Config)
    (c : Ctx PerAlert.Notification.t) n i alert pc :
  BodyParser c = Ok n ->
  PerAlert.Notification.Alerts n !! i = Some alert ->
  posts (trace (PerAlert.serve out cfg c).2) !! i = Some pc ->
  card_title pc.2
  = match PerAlert.Alert.Annotations alert !! "summary" with
    | Some title => title
    | None =>
        match PerAlert.Alert.Labels alert !! "alertname" with
        | Some title => title
        | None => "[No Title]"
        end
    end.
Proof.
  intros Hc Ha Hp.
  destruct (peralert_cards out cfg c n i alert pc Hc Ha Hp) as (d & -> & _).
  reflexivity.
Qed.

Lemma peralert_title_chain_witness :
  let c := request_of (PerAlert.decode three_alerts) "abc" in
  map (fun pc => card_title pc.2) (posts (trace (PerAlert.serve outside_up cfg_plain c).2))
  = ["Disk full on db1"; "HighLoad"; "[No Title]"]
  /\ forall pc, posts (trace (PerAlert.serve outside_up cfg_plain c).2) !! 2%nat = Some pc ->
                card_title pc.2 = "[No Title]".
Proof.
  intros c. split; [vm_compute; reflexivity|]. intros pc Hp.
  rewrite (peralert_title_chain outside_up cfg_plain c (PerAlert.decode three_alerts)
             2%nat (PerAlert.decode_alert (alert_of "firing" {[ "instance" := "db2" ]} ∅))
             pc eq_refl eq_refl Hp).
  vm_compute. reflexivity.
Defined.

(** When the per-alert handler returns nil, every alert has had its card:
    there are as many deliveries as alerts, in their order, each one
    answered by the destination; with a key there were as many chat calls;
    and unless the list was empty the status is 204. *)
Theorem peralert_success_delivers_every_alert (out : Outside) (cfg : Config)
    (c : Ctx PerAlert.Notification.t) n :
  BodyParser c = Ok n ->
  (PerAlert.serve out cfg c).1 = Replied None ->
  length (posts (trace (PerAlert.serve out cfg c).2))
  = length (PerAlert.Notification.Alerts n)
  /\ (forall request reply,
         EvPost request reply ∈ trace (PerAlert.serve out cfg c).2 ->
         exists resp, reply = Ok resp)
  /\ (openaiToken cfg <> "" ->
      length (chats (trace (PerAlert.serve out cfg c).2))
      = length (PerAlert.Notification.Alerts n))
  /\ (PerAlert.Notification.Alerts n <> [] ->
      status (PerAlert.serve out cfg c).2 = 204).
Proof.
  intros Hc Ho.
  pose proof (peralert_serve_served out cfg c n Hc) as Hs.
  destruct (PerAlert.serve out cfg c) as [o w]. cbn [fst snd] in *. subst o.
  inversion Hs as [Hnil | evs _ Hturns | evs err _ Hturns |]; subst; cbn [trace status].
  - rewrite Hnil. repeat split; try done. intros ? ? Hin. in_list Hin.
  - destruct (turns_posts_length _ _ _ _ _ _ Hturns) as [_ Hlen].
    destruct (turns_counts _ _ _ _ _ _ Hturns) as (_ & _ & Hchats).
    repeat split; auto.
    intros request reply Hin.
    pose proof (turns_post _ _ _ _ _ _ _ _ Hturns Hin) as Hp.
    destruct reply; [eauto | discriminate Hp].
  - destruct (turns_returned _ _ _ _ _ _ Hturns) as (e & request & Hsome & _).
    discriminate Hsome.
Qed.

Lemma peralert_success_delivers_every_alert_witness :
  let c := request_of (PerAlert.decode three_alerts) "abc" in
  length (posts (trace (PerAlert.serve outside_up cfg_ai c).2)) = 3%nat
  /\ length (chats (trace (PerAlert.serve outside_up cfg_ai c).2)) = 3%nat
  /\ status (PerAlert.serve outside_up cfg_ai c).2 = 204.
Proof.
  intros c.
  destruct (peralert_success_delivers_every_alert outside_up cfg_ai c
              (PerAlert.decode three_alerts) eq_refl ltac:(vm_compute; reflexivity))
    as (Hposts & _ & Hchats & Hstatus).
  split; [exact Hposts|]. split; [apply Hchats; discriminate|].
  apply Hstatus. discriminate.
Defined.

(** A handler that returns an error after its body parsed returns the
    transport error of a POST, and that POST is the last thing the request
    did: the per-alert loop does not go on to the alerts that follow, and
    the status is not set. *)
Theorem failed_delivery_ends_request (out : Outside) (cfg : Config) (e : error) :
  (forall (c : Ctx Grouped.Notification.t) n,
      BodyParser c = Ok n ->
      (Grouped.serve out cfg c).1 = Replied (Some e) ->
      (exists pre request,
          trace (Grouped.serve out cfg c).2 = (pre ++ [EvPost request (Err e)])%list)
      /\ status (Grouped.serve out cfg c).2 = StatusOK)
  /\ (forall (c : Ctx PerAlert.Notification.t) n,
         BodyParser c = Ok n ->
         (PerAlert.serve out cfg c).1 = Replied (Some e) ->
         (exists pre request,
             trace (PerAlert.serve out cfg c).2 = (pre ++ [EvPost request (Err e)])%list)
         /\ (length (posts (trace (PerAlert.serve out cfg c).2))
             <= length (PerAlert.Notification.Alerts n))%nat
         /\ status (PerAlert.serve out cfg c).2 = StatusOK).
Proof.
  split; intros c n Hc Ho.
  - pose proof (grouped_serve_served out cfg c n Hc) as Hs.
    destruct (Grouped.serve out cfg c) as [o w]. cbn [fst snd] in *. subst o.
    inversion Hs as [| | evs d err Henr Hurl |]; subst; cbn [trace status].
    split; [|reflexivity].
    exists (evs ++ [EvLog (LogCardJSON
                             (make_card (GroupedRun.title n) (GroupedRun.color n) d))])%list,
      (GroupedRun.post_request cfg c n d).
    now rewrite <- app_assoc.
  - pose proof (peralert_serve_served out cfg c n Hc) as Hs.
    destruct (PerAlert.serve out cfg c) as [o w]. cbn [fst snd] in *. subst o.
    inversion Hs as [| | evs err _ Hturns |]; subst; cbn [trace status].
    pose proof (turns_last _ _ _ _ _ _ Hturns) as (e' & request & pre & [= <-] & ->).
    split; [eauto|]. split; [|reflexivity].
    apply (turns_posts_length _ _ _ _ _ _ Hturns).
Qed.

Lemma failed_delivery_ends_request_witness :
  let c := request_of (PerAlert.decode three_alerts) "abc" in
  let e := {| Error := "connection reset by peer" |} in
  (exists pre request,
      trace (PerAlert.serve outside_second_fails cfg_plain c).2
      = (pre ++ [EvPost request (Err e)])%list)
  /\ length (posts (trace (PerAlert.serve outside_second_fails cfg_plain c).2)) = 2%nat
  /\ status (PerAlert.serve outside_second_fails cfg_plain c).2 = StatusOK.
Proof.
  intros c e.
  destruct (proj2 (failed_delivery_ends_request outside_second_fails cfg_plain e)
                  c (PerAlert.decode three_alerts) eq_refl
                  ltac:(vm_compute; reflexivity))
    as (Hlast & _ & Hstatus).
  split; [exact Hlast|]. split; [vm_compute; reflexivity | exact Hstatus].
Defined.

(** The grouped handler reads five things of the notification: the summary
    and the description among the common annotations, the title, the
    message and the status.  Two bodies that agree on them are served
    alike, whatever their alerts, labels and other fields. *)
Theorem grouped_reads_five_fields (out : Outside) (cfg : Config) (bot : string)
    (n1 n2 : Grouped.Notification.t) :
  Grouped.Notification.CommonAnnotations n1 !! "summary"
  = Grouped.Notification.CommonAnnotations n2 !! "summary" ->
  Grouped.Notification.CommonAnnotations n1 !! "description"
  = Grouped.Notification.CommonAnnotations n2 !! "description" ->
  Grouped.Notification.Title n1 = Grouped.Notification.Title n2 ->
  Grouped.Notification.Message n1 = Grouped.Notification.Message n2 ->
  Grouped.Notification.Status n1 = Grouped.Notification.Status n2 ->
  Grouped.serve out cfg {| BodyParser := Ok n1; route_botUUID := bot |}
  = Grouped.serve out cfg {| BodyParser := Ok n2; route_botUUID := bot |}.
Proof.
  intros Hs Hd Ht Hm Hst.
  unfold Grouped.serve, run, Grouped.handler. unfold_ops.
  unfold Params. cbn [BodyParser route_botUUID].
  rewrite Hs, Hd, Ht, Hm, Hst. reflexivity.
Qed.

Lemma grouped_reads_five_fields_witness :
  let quiet :=
    notification_of "firing" {[ "team" := "db" ]}
      {[ "summary" := "CPU high"; "description" := "load avg 8.2";
         "runbook" := "https://wiki/cpu" ]} [] in
  Grouped.serve outside_up cfg_ai {| BodyParser := Ok cpu_high; route_botUUID := "abc" |}
  = Grouped.serve outside_up cfg_ai {| BodyParser := Ok quiet; route_botUUID := "abc" |}.
Proof.
  intros quiet.
  apply (grouped_reads_five_fields outside_up cfg_ai "abc" cpu_high quiet);
    vm_compute; reflexivity.
Defined.

Lemma each_alert_same (out : Outside) (cfg : Config)
    (c1 c2 : Ctx PerAlert.Notification.t) (a1 a2 : PerAlert.Alert.t) (w : World) :
  route_botUUID c1 = route_botUUID c2 ->
  PerAlert.Alert.Status a1 = PerAlert.Alert.Status a2 ->
  PerAlert.Alert.Annotations a1 !! "summary" = PerAlert.Alert.Annotations a2 !! "summary" ->
  PerAlert.Alert.Annotations a1 !! "description"
  = PerAlert.Alert.Annotations a2 !! "description" ->
  PerAlert.Alert.Labels a1 !! "alertname" = PerAlert.Alert.Labels a2 !! "alertname" ->
  PerAlert.each_alert out cfg c1 a1 w = PerAlert.each_alert out cfg c2 a2 w.
Proof.
  intros Hr Hst Hs Hd Hl.
  unfold PerAlert.each_alert. unfold_ops. unfold Params.
  rewrite Hr, Hst, Hs, Hd, Hl. reflexivity.
Qed.

(** The per-alert handler reads four things of each alert: its status, the
    summary and the description among its annotations, and its alertname
    label.  Two bodies whose alerts agree on them, one by one, are served
    alike. *)
Theorem peralert_reads_four_fields (out : Outside) (cfg : Config) (bot : string)
    (n1 n2 : PerAlert.Notification.t) :
  Forall2 (fun a1 a2 =>
             PerAlert.Alert.Status a1 = PerAlert.Alert.Status a2
             /\ PerAlert.Alert.Annotations a1 !! "summary"
                = PerAlert.Alert.Annotations a2 !! "summary"
             /\ PerAlert.Alert.Annotations a1 !! "description"
                = PerAlert.Alert.Annotations a2 !! "description"
             /\ PerAlert.Alert.Labels a1 !! "alertname"
                = PerAlert.Alert.Labels a2 !! "alertname")
          (PerAlert.Notification.Alerts n1) (PerAlert.Notification.Alerts n2) ->
  PerAlert.serve out cfg {| BodyParser := Ok n1; route_botUUID := bot |}
  = PerAlert.serve out cfg {| BodyParser := Ok n2; route_botUUID := bot |}.
Proof.
  intros Hall.
  set (c1 := {| BodyParser := Ok n1; route_botUUID := bot |}).
  set (c2 := {| BodyParser := Ok n2; route_botUUID := bot |}).
  assert (Hrange : forall w,
             range (PerAlert.Notification.Alerts n1) (PerAlert.each_alert out cfg c1) w
             = range (PerAlert.Notification.Alerts n2) (PerAlert.each_alert out cfg c2) w).
  { induction Hall as [|a1 a2 l1 l2 (Hst & Hs & Hd & Hl) _ IH]; intros w; [reflexivity|].
    cbn [range]. unfold mbind, M_bind.
    rewrite (each_alert_same out cfg c1 c2 a1 a2 w eq_refl Hst Hs Hd Hl).
    destruct (PerAlert.each_alert out cfg c2 a2 w) as [[[]|err|] w']; [apply IH|done..]. }
  pose proof (Forall2_length _ _ _ Hall) as Hlen. subst c1 c2.
  unfold PerAlert.serve, run, PerAlert.handler, try. cbn [BodyParser].
  unfold mbind, M_bind, mret, M_ret, return_. rewrite Hlen.
  destruct (decide (length (PerAlert.Notification.Alerts n2) = 0%nat));
    [reflexivity|].
  now rewrite (Hrange fresh).
Qed.

Lemma peralert_reads_four_fields_witness :
  let a1 : PerAlert.Alert.t :=
    {| PerAlert.Alert.Status := "firing";
       PerAlert.Alert.Annotations := {[ "summary" := "Disk full on db1" ]};
       PerAlert.Alert.Labels := {[ "alertname" := "DiskFull"; "instance" := "db1" ]};
       PerAlert.Alert.StartsAt := "2024-01-01T00:00:00Z" |} in
  let a2 : PerAlert.Alert.t :=
    {| PerAlert.Alert.Status := "firing";
       PerAlert.Alert.Annotations := {[ "summary" := "Disk full on db1"; "owner" := "dba" ]};
       PerAlert.Alert.Labels := {[ "alertname" := "DiskFull" ]};
       PerAlert.Alert.StartsAt := "2024-06-30T12:00:00Z" |} in
  PerAlert.serve outside_up cfg_ai
    {| BodyParser := Ok {| PerAlert.Notification.Alerts := [a1] |}; route_botUUID := "" |}
  = PerAlert.serve outside_up cfg_ai
      {| BodyParser := Ok {| PerAlert.Notification.Alerts := [a2] |}; route_botUUID := "" |}.
Proof.
  intros a1 a2.
  apply (peralert_reads_four_fields outside_up cfg_ai ""
           {| PerAlert.Notification.Alerts := [a1] |}
           {| PerAlert.Notification.Alerts := [a2] |}).
  repeat constructor; vm_compute; reflexivity.
Defined.

Section Crashes.

Import PerAlert PerAlertRun.

Variable out : Outside.
Variable cfg : Config.
Variable c : Ctx Notification.t.

Lemma turn_no_choice_crash alert evs r config request resp :
  turn out cfg c alert evs r ->
  EvChat config request (Ok resp) ∈ evs ->
  openai.Choices resp = [] ->
  r = Panicked.
Proof.
  destruct 1 as [resp' Ht Hch' | evs d Henr Hurl | evs d e Henr Hurl
                | evs d resp' Henr Hurl]; intros Hin Hnil; [done..| |].
  - apply elem_of_app in Hin as [Hin|Hin]; [|in_list Hin].
    destruct Henr; in_list Hin. no_choice Hnil.
  - apply elem_of_app in Hin as [Hin|Hin]; [|in_list Hin].
    destruct Henr; in_list Hin. no_choice Hnil.
Qed.

Lemma turns_no_choice_crash alerts evs r config request resp :
  turns out cfg c alerts evs r ->
  EvChat config request (Ok resp) ∈ evs ->
  openai.Choices resp = [] ->
  r = Panicked.
Proof.
  induction 1 as [| alert0 rest evs r Hturn Hr
                  | alert0 rest evs evs' r Hturn _ IH]; intros Hin Hnil.
  - in_list Hin.
  - eauto using turn_no_choice_crash.
  - apply elem_of_app in Hin as [Hin|Hin]; [|auto].
    pose proof (turn_no_choice_crash _ _ _ _ _ _ Hturn Hin Hnil). discriminate.
Qed.

Lemma turns_panicked_short alerts evs :
  turns out cfg c alerts evs Panicked ->
  (length (posts evs) < length alerts)%nat.
Proof.
  remember Panicked as r eqn:Hr.
  induction 1 as [| alert0 rest evs r Hturn _
                  | alert0 rest evs evs' r Hturn _ IH]; subst.
  - discriminate.
  - destruct (turn_posts _ _ _ _ _ _ Hturn) as [(_ & ->) | (Hne & _)];
      [cbn; lia | done].
  - rewrite posts_app, length_app.
    destruct (turn_posts _ _ _ _ _ _ Hturn) as [(? & _) | (_ & pc & -> & _)];
      [discriminate|].
    specialize (IH eq_refl). cbn. lia.
Qed.

Lemma turn_refused alert evs r :
  url_accepted out (destination cfg c) = false ->
  turn out cfg c alert evs r ->
  r = Panicked /\ posts evs = [].
Proof.
  intros Hurl.
  destruct 1 as [resp Ht Hch | evs d Henr _ | evs d e Henr Hok
                | evs d resp Henr Hok]; try congruence.
  - done.
  - now rewrite (peralert_enriched_posts _ _ _ _ Henr).
Qed.

Lemma turns_refused alerts evs r :
  url_accepted out (destination cfg c) = false ->
  alerts <> [] ->
  turns out cfg c alerts evs r ->
  r = Panicked /\ posts evs = [].
Proof.
  intros Hurl Hne.
  destruct 1 as [| alert0 rest evs r Hturn _ | alert0 rest evs evs' r Hturn _].
  - done.
  - eauto using turn_refused.
  - destruct (turn_refused _ _ _ Hurl Hturn). discriminate.
Qed.

End Crashes.

(** A chat call that is answered without any choice crashes the request:
    [resp.Choices[0]] panics.  The grouped handler has posted nothing by
    then; the per-alert handler has posted the cards of the alerts before,
    and not the card of this one. *)
Theorem reply_without_choice_crashes (out : Outside) (cfg : Config)
    config request resp :
  openai.Choices resp = [] ->
  (forall c : Ctx Grouped.Notification.t,
      EvChat config request (Ok resp) ∈ trace (Grouped.serve out cfg c).2 ->
      (Grouped.serve out cfg c).1 = Crashed
      /\ posts (trace (Grouped.serve out cfg c).2) = [])
  /\ (forall (c : Ctx PerAlert.Notification.t) n,
         BodyParser c = Ok n ->
         EvChat config request (Ok resp) ∈ trace (PerAlert.serve out cfg c).2 ->
         (PerAlert.serve out cfg c).1 = Crashed
         /\ (length (posts (trace (PerAlert.serve out cfg c).2))
             < length (PerAlert.Notification.Alerts n))%nat).
Proof.
  intros Hnil. split.
  - intros c Hin.
    destruct (BodyParser c) as [n|err] eqn:Hc;
      [|rewrite (grouped_serve_malformed out cfg c err Hc) in Hin; in_list Hin].
    pose proof (grouped_serve_served out cfg c n Hc) as Hs.
    destruct (Grouped.serve out cfg c) as [o w]. cbn [fst snd] in *.
    destruct Hs as [resp' Ht Hch | evs d Henr Hno | evs d e Henr _
                   | evs d resp' Henr _]; cbn [trace] in *.
    + done.
    + apply elem_of_app in Hin as [Hin|Hin]; [|in_list Hin].
      destruct Henr; in_list Hin. no_choice Hnil.
    + apply elem_of_app in Hin as [Hin|Hin]; [|in_list Hin].
      destruct Henr; in_list Hin. no_choice Hnil.
    + apply elem_of_app in Hin as [Hin|Hin]; [|in_list Hin].
      destruct Henr; in_list Hin. no_choice Hnil.
  - intros c n Hc Hin.
    pose proof (peralert_serve_served out cfg c n Hc) as Hs.
    destruct (PerAlert.serve out cfg c) as [o w]. cbn [fst snd] in *.
    destruct Hs as [Hno | evs Hne Hturns | evs err Hne Hturns | evs Hne Hturns];
      cbn [trace] in *.
    + in_list Hin.
    + pose proof (turns_no_choice_crash _ _ _ _ _ _ _ _ _ Hturns Hin Hnil). discriminate.
    + pose proof (turns_no_choice_crash _ _ _ _ _ _ _ _ _ Hturns Hin Hnil). discriminate.
    + split; [reflexivity|]. eauto using turns_panicked_short.
Qed.

Lemma reply_without_choice_crashes_witness :
  let c := request_of cpu_high "abc" in
  (Grouped.serve outside_no_choice cfg_ai c).1 = Crashed
  /\ posts (trace (Grouped.serve outside_no_choice cfg_ai c).2) = [].
Proof.
  intros c.
  apply (proj1 (reply_without_choice_crashes outside_no_choice cfg_ai
                  (GroupedRun.chat_config cfg_ai)
                  (GroupedRun.chat_request cfg_ai cpu_high)
                  {| openai.Choices := [] |} eq_refl) c).
  apply (list_elem_of_lookup_2 _ 1%nat). vm_compute. reflexivity.
Defined.

(** The program drops the error of [http.NewRequest] and uses the request:
    a destination URL that [http.NewRequest] refuses crashes every request
    that comes to its delivery, before anything is posted. *)
Theorem refused_url_crashes (out : Outside) (cfg : Config) :
  (forall (c : Ctx Grouped.Notification.t) n,
      BodyParser c = Ok n ->
      url_accepted out (feishuWebhookBase cfg +:+ "/" +:+ Params c (defaultBotUUID cfg))
      = false ->
      (Grouped.serve out cfg c).1 = Crashed
      /\ posts (trace (Grouped.serve out cfg c).2) = [])
  /\ (forall (c : Ctx PerAlert.Notification.t) n,
         BodyParser c = Ok n ->
         PerAlert.Notification.Alerts n <> [] ->
         url_accepted out (feishuWebhookBase cfg +:+ "/" +:+ Params c (defaultBotUUID cfg))
         = false ->
         (PerAlert.serve out cfg c).1 = Crashed
         /\ posts (trace (PerAlert.serve out cfg c).2) = []).
Proof.
  split.
  - intros c n Hc Hurl.
    destruct (grouped_served_posts _ _ _ _ _ _ (grouped_serve_served out cfg c n Hc))
      as [(Hcr & Hnone & _) | (evs & d & reply & _ & Hok & _)]; [done|].
    unfold GroupedRun.destination in Hok. congruence.
  - intros c n Hc Hne Hurl.
    pose proof (peralert_serve_served out cfg c n Hc) as Hs.
    destruct (PerAlert.serve out cfg c) as [o w]. cbn [fst snd] in *.
    destruct Hs as [Hno | evs _ Hturns | evs err _ Hturns | evs _ Hturns];
      cbn [trace]; [contradiction|..];
      destruct (turns_refused out cfg c _ _ _ Hurl Hne Hturns) as [Hr Hp];
      try discriminate Hr.
    done.
Qed.

Lemma refused_url_crashes_witness :
  let c := request_of (PerAlert.decode three_alerts) "%zz" in
  (PerAlert.serve outside_bad_url cfg_plain c).1 = Crashed
  /\ posts (trace (PerAlert.serve outside_bad_url cfg_plain c).2) = [].
Proof.
  intros c.
  apply (proj2 (refused_url_crashes outside_bad_url cfg_plain) c
               (PerAlert.decode three_alerts)); [reflexivity | discriminate | reflexivity].
Defined.

(** The grouped handler returns nil exactly when it has set the status 204,
    and exactly when the destination has answered its POST: it never
    reports success without a delivery. *)
Theorem grouped_success_means_delivered (out : Outside) (cfg : Config)
    (c : Ctx Grouped.Notification.t) :
  ((Grouped.serve out cfg c).1 = Replied None
   <-> status (Grouped.serve out cfg c).2 = 204)
  /\ ((Grouped.serve out cfg c).1 = Replied None
      <-> exists request resp,
            EvPost request (Ok resp) ∈ trace (Grouped.serve out cfg c).2).
Proof.
  destruct (BodyParser c) as [n|err] eqn:Hc.
  - destruct (grouped_served_posts _ _ _ _ _ _ (grouped_serve_served out cfg c n Hc))
      as [(Hcr & Hnone & Hst) | (evs & d & reply & Henr & _ & Htr & _ & Hout & Hst)].
    + rewrite Hcr, Hst. split; split; try discriminate.
      intros (request & resp & Hin). apply post_in_posts in Hin.
      rewrite Hnone in Hin. in_list Hin.
    + rewrite Hout, Hst, Htr. destruct reply as [resp|e]; split; split;
        try discriminate; try reflexivity.
      * intros _. eexists _, _. list_mem.
      * intros (request & resp & Hin).
        apply elem_of_app in Hin as [Hin|Hin]; [|in_list Hin].
        apply post_in_posts in Hin.
        rewrite (grouped_enriched_posts _ _ _ _ Henr) in Hin. in_list Hin.
  - rewrite (grouped_serve_malformed out cfg c err Hc). cbn.
    split; split; try discriminate.
    intros (request & resp & Hin). in_list Hin.
Qed.

(** ** More of start-up *)

Section Matcher.

Import regexp.

Lemma orelse_Some {A} (a b : option A) (x : A) :
  orelse a b = Some x -> a = Some x \/ b = Some x.
Proof. destruct a; cbn; auto. Qed.

Lemma step_consumes (p : ascii -> bool) :
  p strings.LF = false -> consumes_no_lf (step p).
Proof.
  intros Hp k pos rest caps x. unfold step.
  destruct rest as [|c rest]; [discriminate|].
  destruct (p c) eqn:Hc; [|discriminate]. intros Hk.
  exists (String c ""), rest, (S pos), caps. split; [reflexivity|]. split; [|exact Hk].
  cbn [strings.contains]. destruct (Ascii.eqb_spec strings.LF c) as [<-|_]; [|reflexivity].
  congruence.
Qed.

Lemma star_consumes (m : Cont -> Cont) :
  consumes_no_lf m ->
  forall fuel (k : Cont) pos rest caps x,
    star m k fuel pos rest caps = Some x ->
    exists pre rest' pos' caps',
      rest = pre +:+ rest'
      /\ strings.contains pre strings.LF = false
      /\ k pos' rest' caps' = Some x.
Proof.
  intros Hm. induction fuel as [|fuel IH]; intros k pos rest caps x; cbn [star].
  - intros Hk. exists "", rest, pos, caps. done.
  - intros [Hmore|Hk]%orelse_Some.
    + apply Hm in Hmore as (pre1 & rest1 & pos1 & caps1 & -> & Hpre1 & Hnext).
      destruct (decide (pos < pos1)%nat); [|discriminate].
      apply IH in Hnext as (pre2 & rest2 & pos2 & caps2 & -> & Hpre2 & Hk).
      exists (pre1 +:+ pre2), rest2, pos2, caps2.
      rewrite append_assoc, contains_app, Hpre1, Hpre2. done.
    + exists "", rest, pos, caps. done.
Qed.

Lemma times_consumes (m : Cont -> Cont) :
  consumes_no_lf m -> forall n, consumes_no_lf (times m n).
Proof.
  intros Hm. induction n as [|n IH]; intros k pos rest caps x; cbn [times].
  - intros Hk. exists "", rest, pos, caps. done.
  - intros Hmore.
    apply Hm in Hmore as (pre1 & rest1 & pos1 & caps1 & -> & Hpre1 & Hnext).
    apply IH in Hnext as (pre2 & rest2 & pos2 & caps2 & -> & Hpre2 & Hk).
    exists (pre1 +:+ pre2), rest2, pos2, caps2.
    rewrite append_assoc, contains_app, Hpre1, Hpre2. done.
Qed.

(** What a pattern without line feed matches holds no line feed. *)
Lemma exec_consumes (r : Regexp) : lf_free r = true -> consumes_no_lf (exec r).
Proof.
  induction r as [| | |d|ranges|i sub IH|sub IH|sub IH|n sub IH|r1 IH1 r2 IH2];
    cbn [lf_free exec]; intros Hfree.
  - intros k pos rest caps x. destruct (decide (pos = 0%nat)); [|discriminate].
    intros Hk. exists "", rest, pos, caps. done.
  - intros k pos rest caps x. destruct rest; [|discriminate].
    intros Hk. exists "", "", pos, caps. done.
  - apply step_consumes. reflexivity.
  - apply step_consumes. now apply negb_true_iff in Hfree.
  - apply step_consumes. now apply negb_true_iff in Hfree.
  - intros k pos rest caps x Hsub.
    apply (IH Hfree) in Hsub as (pre & rest' & pos' & caps' & -> & Hpre & Hk). eauto 10.
  - intros k pos rest caps x Hstar.
    exact (star_consumes _ (IH Hfree) _ _ _ _ _ _ Hstar).
  - intros k pos rest caps x [Hsub|Hk]%orelse_Some.
    + exact (IH Hfree _ _ _ _ _ Hsub).
    + exists "", rest, pos, caps. done.
  - exact (times_consumes _ (IH Hfree) n).
  - apply andb_true_iff in Hfree as [H1 H2].
    intros k pos rest caps x Hr1.
    apply (IH1 H1) in Hr1 as (pre1 & rest1 & pos1 & caps1 & -> & Hpre1 & Hr2).
    apply (IH2 H2) in Hr2 as (pre2 & rest2 & pos2 & caps2 & -> & Hpre2 & Hk).
    exists (pre1 +:+ pre2), rest2, pos2, caps2.
    rewrite append_assoc, contains_app, Hpre1, Hpre2. done.
Qed.

(** The pattern of [main] begins with [^]: it matches at no other place
    than the start. *)
Lemma search_after_begin (rest : string) :
  forall pos, pos <> 0%nat -> search webhook_re pos rest = None.
Proof.
  induction rest as [|c rest IH]; intros pos Hpos; cbn [search];
    unfold webhook_re at 1; cbn [exec];
    (destruct (decide (pos = 0%nat)); [contradiction|]); [reflexivity|].
  now apply IH.
Qed.

(** On a text with a line feed the pattern of [main] has no match. *)
Lemma webhook_re_line_feed (s : string) :
  strings.contains s strings.LF = true ->
  FindStringSubmatch webhook_re s = [].
Proof.
  intros Hlf. unfold FindStringSubmatch.
  assert (Hexec : exec webhook_re (fun pos' _ caps => Some (pos', caps)) 0 s ∅ = None).
  { destruct (exec webhook_re _ 0 s ∅) as [x|] eqn:Hx; [exfalso|reflexivity].
    set (dash := "-"%char) in *.
    change (exec webhook_re (fun pos' _ caps => Some (pos', caps)))
      with (exec (Concat BeginText
                    (Concat (Capture 1 (Star AnyCharNotNL))
                       (Concat (Quest (Literal "/"%char))
                          (Quest (Capture 2
                             (Repeat 36
                                (CharClass [(dash, dash); ("a"%char, "z"%char);
                                            ("0"%char, "9"%char)])))))))
                 (exec EndText (fun pos' _ caps => Some (pos', caps)))) in Hx.
    apply exec_consumes in Hx as (pre & rest' & pos' & caps' & -> & Hpre & Hend);
      [|vm_compute; reflexivity].
    cbn [exec] in Hend. destruct rest'; [|discriminate].
    rewrite append_nil_r in Hlf. congruence. }
  assert (Hsearch : search webhook_re 0 s = None).
  { destruct s; cbn [search]; rewrite Hexec; [reflexivity|].
    now apply search_after_begin. }
  now rewrite Hsearch.
Qed.

End Matcher.

Lemma load_config_None_iff (env : gmap string string) :
  load_config env = None
  <-> strings.contains (Getenv env "FEISHU_WEBHOOK") strings.LF = true.
Proof.
  unfold load_config. set (s := Getenv env "FEISHU_WEBHOOK"). cbv zeta.
  destruct (strings.contains s strings.LF) eqn:Hlf.
  - split; [reflexivity|]. intros _.
    destruct (decide (s <> "")) as [_|Hs];
      [|apply dec_stable in Hs; rewrite Hs in Hlf; discriminate].
    now rewrite (webhook_re_line_feed s Hlf).
  - split; [|discriminate].
    destruct (decide (s <> "")) as [_|_]; [|discriminate].
    rewrite (webhook_re_greedy s Hlf). discriminate.
Qed.

(** Start-up panics on the configuration of the destination exactly when
    FEISHU_WEBHOOK holds a line feed: the pattern then has no match and
    [matches[1]] is out of range.  In every other environment it yields a
    configuration, whose model name is never empty. *)
Theorem load_config_panics_iff_line_feed (env : gmap string string) :
  (load_config env = None
   <-> strings.contains (Getenv env "FEISHU_WEBHOOK") strings.LF = true)
  /\ (forall cfg, load_config env = Some cfg -> openaiModelName cfg <> "")
  /\ (strings.contains (Getenv env "FEISHU_WEBHOOK") strings.LF = false ->
      exists cfg, load_config env = Some cfg).
Proof.
  split; [apply load_config_None_iff|]. split.
  - unfold load_config. cbv zeta.
    destruct (if decide (Getenv env "FEISHU_WEBHOOK" <> "") then _ else _) as [dest|];
      [|discriminate].
    cbn [mbind option_bind]. intros cfg [= <-]. cbn [openaiModelName].
    destruct (decide (Getenv env "OPENAI_MODEL_NAME" = "")); [discriminate | done].
  - intros Hlf. destruct (load_config env) as [cfg|] eqn:Hcfg; [eauto|].
    apply load_config_None_iff in Hcfg. congruence.
Qed.

(** When FEISHU_WEBHOOK is set, FEISHU_WEBHOOK_BASE and FEISHU_WEBHOOK_UUID
    have no effect on the configuration. *)
Theorem webhook_overrides_base_and_uuid (env : gmap string string) (base uuid : string) :
  Getenv env "FEISHU_WEBHOOK" <> "" ->
  load_config (<["FEISHU_WEBHOOK_BASE" := base]> (<["FEISHU_WEBHOOK_UUID" := uuid]> env))
  = load_config env.
Proof.
  intros Hset. unfold load_config, Getenv in *.
  rewrite !lookup_insert_ne by discriminate. cbv zeta.
  destruct (decide (default "" (env !! "FEISHU_WEBHOOK") <> "")); [reflexivity|contradiction].
Qed.

Lemma webhook_overrides_base_and_uuid_witness :
  load_config {[ "FEISHU_WEBHOOK_BASE" := "https://other/hook";
                 "FEISHU_WEBHOOK_UUID" := "bot1";
                 "FEISHU_WEBHOOK" := "https://h/hook/bot0" ]}
  = load_config {[ "FEISHU_WEBHOOK" := "https://h/hook/bot0" ]}.
Proof.
  apply (webhook_overrides_base_and_uuid {[ "FEISHU_WEBHOOK" := "https://h/hook/bot0" ]}
           "https://other/hook" "bot1").
  vm_compute. discriminate.
Defined.

Lemma trimRight_all (p : ascii -> bool) (s : string) :
  all_bytes p s = true -> strings.trimRightASCII s p = "".
Proof.
  induction s as [|c s IH]; [reflexivity|]. cbn [all_bytes strings.trimRightASCII].
  intros [Hc Hs]%andb_true_iff. now rewrite (IH Hs), Hc.
Qed.

Lemma TrimRight_spec (s cutset : string) :
  exists suf,
    s = strings.TrimRight s cutset +:+ suf
    /\ all_bytes (strings.contains cutset) suf = true
    /\ byte_in (strings.contains cutset) (last_byte (strings.TrimRight s cutset)) = false.
Proof.
  unfold strings.TrimRight.
  destruct (decide (s = "" ∨ cutset = "")) as [[->| ->]|_].
  - exists "". done.
  - exists "". rewrite append_nil_r. split; [done|]. split; [done|].
    destruct (last_byte s); reflexivity.
  - apply trimRight_spec.
Qed.

(** Without FEISHU_WEBHOOK, start-up takes the base from FEISHU_WEBHOOK_BASE
    with the slashes at its end cut off: the variable is the part that is
    kept, which does not end in a slash, followed by slashes only.  The base
    is the part that is kept, and the built-in base when nothing is kept
    (the variable unset, empty, or made of slashes only); so it is never
    empty and never ends in a slash.  The default bot is FEISHU_WEBHOOK_UUID
    as it stands. *)
Theorem base_without_trailing_slash (env : gmap string string) :
  Getenv env "FEISHU_WEBHOOK" = "" ->
  exists cfg kept slashes,
    load_config env = Some cfg
    /\ Getenv env "FEISHU_WEBHOOK_BASE" = kept +:+ slashes
    /\ all_bytes (Ascii.eqb "/"%char) slashes = true
    /\ last_byte kept <> Some "/"%char
    /\ feishuWebhookBase cfg = (if decide (kept = "") then defaultWebhookBase else kept)
    /\ feishuWebhookBase cfg <> ""
    /\ last_byte (feishuWebhookBase cfg) <> Some "/"%char
    /\ defaultBotUUID cfg = Getenv env "FEISHU_WEBHOOK_UUID"
    /\ (all_bytes (Ascii.eqb "/"%char) (Getenv env "FEISHU_WEBHOOK_BASE") = true ->
        feishuWebhookBase cfg = defaultWebhookBase).
Proof.
  intros Hunset. unfold load_config. rewrite Hunset. cbv zeta.
  destruct (decide ("" <> "")) as [?|_]; [done|].
  set (raw := Getenv env "FEISHU_WEBHOOK_BASE").
  assert (Hp : forall t, all_bytes (strings.contains "/") t
                         = all_bytes (Ascii.eqb "/"%char) t).
  { induction t as [|c t IH]; [reflexivity|]. cbn [all_bytes]. rewrite IH.
    cbn [strings.contains]. rewrite (Ascii.eqb_sym c).
    now destruct (Ascii.eqb "/" c). }
  destruct (TrimRight_spec raw "/") as (suf & Heq & Hsuf & Hlast).
  assert (Hkept : last_byte (strings.TrimRight raw "/") <> Some "/"%char).
  { intros Hslash. rewrite Hslash in Hlast. discriminate Hlast. }
  cbn [mbind option_bind fst snd].
  eexists. exists (strings.TrimRight raw "/"), suf.
  split; [reflexivity|]. cbn [feishuWebhookBase defaultBotUUID].
  split; [exact Heq|]. split; [now rewrite <- Hp|]. split; [exact Hkept|].
  split; [reflexivity|].
  destruct (decide (strings.TrimRight raw "/" = "")) as [Hempty|Hne].
  - repeat split; done.
  - split; [exact Hne|]. split; [exact Hkept|]. split; [reflexivity|].
    intros Hall. exfalso. apply Hne. unfold strings.TrimRight.
    destruct (decide (raw = "" ∨ "/" = "")) as [[->|?]|_]; [reflexivity|done|].
    apply trimRight_all. now rewrite Hp.
Qed.

Lemma base_without_trailing_slash_witness :
  exists cfg,
    load_config {[ "FEISHU_WEBHOOK_BASE" := "https://h/hook//";
                   "FEISHU_WEBHOOK_UUID" := "bot0" ]} = Some cfg
    /\ feishuWebhookBase cfg = "https://h/hook"
    /\ last_byte (feishuWebhookBase cfg) <> Some "/"%char
    /\ defaultBotUUID cfg = "bot0".
Proof.
  set (env := {[ "FEISHU_WEBHOOK_BASE" := "https://h/hook//";
                 "FEISHU_WEBHOOK_UUID" := "bot0" ]} : gmap string string).
  assert (Hunset : Getenv env "FEISHU_WEBHOOK" = "") by (vm_compute; reflexivity).
  destruct (base_without_trailing_slash env Hunset)
    as (cfg & kept & slashes & Hcfg & _ & _ & _ & _ & _ & Hlast & Huuid & _).
  exists cfg. split; [exact Hcfg|].
  split; [|split; [exact Hlast | exact Huuid]].
  vm_compute in Hcfg. injection Hcfg as <-. reflexivity.
Defined.

(** ** The basic-auth pair *)

Lemma IndexByte_None (s : string) (c : ascii) :
  strings.IndexByte s c = None <-> strings.contains s c = false.
Proof.
  induction s as [|d s IH]; [done|]. cbn [strings.IndexByte strings.contains].
  rewrite (Ascii.eqb_sym c d). destruct (Ascii.eqb d c); [done|].
  rewrite <- IH. destruct (strings.IndexByte s c); done.
Qed.

(** The first separator cuts [s] into what is before it, without any
    separator, and what is after it. *)
Lemma IndexByte_Some (s : string) (c : ascii) :
  forall m,
    strings.IndexByte s c = Some m ->
    s = String.substring 0 m s
        +:+ String c (String.substring (S m) (String.length s - S m) s)
    /\ strings.contains (String.substring 0 m s) c = false.
Proof.
  induction s as [|d s IH]; intros m; [discriminate|].
  cbn [strings.IndexByte]. destruct (Ascii.eqb_spec d c) as [->|Hne].
  - intros [= <-]. cbn [String.substring String.length].
    change (S (String.length s) - 1)%nat with (String.length s - 0)%nat.
    now rewrite Nat.sub_0_r, substring_all.
  - destruct (strings.IndexByte s c) as [m'|]; [|discriminate]. intros [= <-].
    destruct (IH m' eq_refl) as [Heq Hno].
    cbn [String.substring String.length strings.contains].
    change (S (String.length s) - S (S m'))%nat with (String.length s - S m')%nat.
    rewrite append_cons, <- Heq. split; [reflexivity|].
    destruct (Ascii.eqb_spec c d) as [->|_]; [contradiction | exact Hno].
Qed.

(** WEBHOOK_AUTH, when it is set, is cut at its first colon into the user
    and the password of the only pair the middleware accepts: the user
    holds no colon, the password is everything after, further colons
    included, and the two put back around a colon give the value again.
    A value without colon makes start-up panic at [parts[1]]. *)
Theorem auth_pair_is_cut_at_first_colon (env : gmap string string) :
  Getenv env "WEBHOOK_AUTH" <> "" ->
  (load_auth env = None
   <-> strings.contains (Getenv env "WEBHOOK_AUTH") ":"%char = false)
  /\ (forall users,
         load_auth env = Some users ->
         exists user password,
           users = Some {[ user := password ]}
           /\ Getenv env "WEBHOOK_AUTH" = user +:+ ":" +:+ password
           /\ strings.contains user ":"%char = false).
Proof.
  intros Hset. unfold load_auth. set (a := Getenv env "WEBHOOK_AUTH") in *. cbv zeta.
  destruct (decide (a <> "")) as [_|?]; [|contradiction].
  cbn [strings.SplitN strings.genSplit].
  destruct (strings.IndexByte a ":") as [m|] eqn:Hm.
  - destruct (IndexByte_Some a ":" m Hm) as [Heq Hno].
    apply not_true_iff_false in Hno as Hno'.
    split.
    + split; [discriminate|]. intros Hnone.
      apply IndexByte_None in Hnone. congruence.
    + intros users [= <-]. eexists _, _. split; [reflexivity|]. split; [exact Heq | exact Hno].
  - split.
    + split; [intros _; now apply IndexByte_None | reflexivity].
    + intros users Hsome. discriminate Hsome.
Qed.

Lemma auth_pair_is_cut_at_first_colon_witness :
  load_auth {[ "WEBHOOK_AUTH" := "grafana:s3cr3t:with:colons" ]}
  = Some (Some {[ "grafana" := "s3cr3t:with:colons" ]})
  /\ exists user password,
       Some ({[ "grafana" := "s3cr3t:with:colons" ]} : gmap string string)
       = Some {[ user := password ]}
       /\ "grafana:s3cr3t:with:colons" = user +:+ ":" +:+ password
       /\ strings.contains user ":"%char = false.
Proof.
  split; [vm_compute; reflexivity|].
  set (env := {[ "WEBHOOK_AUTH" := "grafana:s3cr3t:with:colons" ]} : gmap string string).
  assert (Hset : Getenv env "WEBHOOK_AUTH" <> "") by (vm_compute; discriminate).
  apply (proj2 (auth_pair_is_cut_at_first_colon env Hset)).
  vm_compute. reflexivity.
Defined.

Example auth_without_colon_panics :
  load_auth {[ "WEBHOOK_AUTH" := "grafana" ]} = None
  /\ startup {[ "WEBHOOK_AUTH" := "grafana" ]} = None
  /\ load_auth ∅ = Some None.
Proof. repeat split; vm_compute; reflexivity. Qed.

(** ** Start-up and the handlers together *)

Lemma load_config_webhook (env : gmap string string) (cfg : Config) :
  Getenv env "FEISHU_WEBHOOK" <> "" ->
  load_config env = Some cfg ->
  feishuWebhookBase cfg = Getenv env "FEISHU_WEBHOOK" /\ defaultBotUUID cfg = "".
Proof.
  intros Hset. unfold load_config. set (s := Getenv env "FEISHU_WEBHOOK") in *. cbv zeta.
  destruct (decide (s <> "")) as [_|?]; [|contradiction].
  destruct (strings.contains s strings.LF) eqn:Hlf.
  - now rewrite (webhook_re_line_feed s Hlf).
  - rewrite (webhook_re_greedy s Hlf). cbn [lookup list_lookup mbind option_bind fst snd].
    intros [= <-]. done.
Qed.

(** With the destination given as FEISHU_WEBHOOK, every card goes to that
    value, a slash, and the route segment of the request: a request
    without a segment posts to the configured URL with a slash at its end,
    since the value is never split into a base and a default bot. *)
Theorem webhook_url_gets_route_appended (out : Outside) (env : gmap string string)
    (cfg : Config) :
  Getenv env "FEISHU_WEBHOOK" <> "" ->
  load_config env = Some cfg ->
  (forall (c : Ctx Grouped.Notification.t) pc,
      pc ∈ posts (trace (Grouped.serve out cfg c).2) ->
      pc.1 = Getenv env "FEISHU_WEBHOOK" +:+ "/" +:+ route_botUUID c)
  /\ (forall (c : Ctx PerAlert.Notification.t) pc,
         pc ∈ posts (trace (PerAlert.serve out cfg c).2) ->
         pc.1 = Getenv env "FEISHU_WEBHOOK" +:+ "/" +:+ route_botUUID c).
Proof.
  intros Hset Hcfg.
  destruct (load_config_webhook env cfg Hset Hcfg) as [Hbase Huuid].
  assert (Hparams : forall N (c : Ctx N), Params c (defaultBotUUID cfg) = route_botUUID c).
  { intros N c. unfold Params. rewrite Huuid.
    destruct (decide (route_botUUID c = "")) as [->|_]; reflexivity. }
  split; intros c pc Hpc.
  - destruct (BodyParser c) as [n|err] eqn:Hc;
      [|rewrite (grouped_serve_malformed out cfg c err Hc) in Hpc; in_list Hpc].
    destruct (grouped_cards out cfg c n pc Hc Hpc) as (d & -> & _).
    cbn [fst]. unfold GroupedRun.destination. now rewrite Hparams, Hbase.
  - destruct (BodyParser c) as [n|err] eqn:Hc;
      [|rewrite (peralert_serve_malformed out cfg c err Hc) in Hpc; in_list Hpc].
    destruct (peralert_cards_mem out cfg c n pc Hc Hpc) as (alert & _ & d & -> & _).
    cbn [fst]. unfold PerAlertRun.destination. now rewrite Hparams, Hbase.
Qed.

Lemma webhook_url_gets_route_appended_witness :
  let env : gmap string string :=
    {[ "FEISHU_WEBHOOK" :=
       "https://open.feishu.cn/open-apis/bot/v2/hook/a21843-123-123-abc987" ]} in
  exists cfg,
    load_config env = Some cfg
    /\ posts (trace (Grouped.serve outside_up cfg (request_of cpu_high "")).2)
       = [("https://open.feishu.cn/open-apis/bot/v2/hook/a21843-123-123-abc987/",
           make_card "CPU high" "red" "load avg 8.2")]
    /\ forall pc,
         pc ∈ posts (trace (Grouped.serve outside_up cfg (request_of cpu_high "")).2) ->
         pc.1 = Getenv env "FEISHU_WEBHOOK" +:+ "/" +:+ "".
Proof.
  intros env.
  assert (Hset : Getenv env "FEISHU_WEBHOOK" <> "") by (vm_compute; discriminate).
  destruct (load_config env) as [cfg|] eqn:Hcfg; [|vm_compute in Hcfg; discriminate Hcfg].
  exists cfg. split; [reflexivity|].
  split; [vm_compute in Hcfg; injection Hcfg as <-; vm_compute; reflexivity|].
  intros pc Hpc.
  exact (proj1 (webhook_url_gets_route_appended outside_up env cfg Hset Hcfg)
               (request_of cpu_high "") pc Hpc).
Defined.

(** Start-up panics in two cases and no other: FEISHU_WEBHOOK holds a line
    feed, or WEBHOOK_AUTH is set and holds no colon. *)
Theorem startup_panics_iff (env : gmap string string) :
  startup env = None
  <-> strings.contains (Getenv env "FEISHU_WEBHOOK") strings.LF = true
      \/ (Getenv env "WEBHOOK_AUTH" <> ""
          /\ strings.contains (Getenv env "WEBHOOK_AUTH") ":"%char = false).
Proof.
  unfold startup.
  pose proof (load_config_None_iff env) as Hcfg.
  assert (Hauth : load_auth env = None
                  <-> Getenv env "WEBHOOK_AUTH" <> ""
                      /\ strings.contains (Getenv env "WEBHOOK_AUTH") ":"%char = false).
  { unfold load_auth. set (a := Getenv env "WEBHOOK_AUTH"). cbv zeta.
    destruct (decide (a <> "")) as [Hset|Hunset].
    - cbn [strings.SplitN strings.genSplit]. rewrite <- IndexByte_None.
      destruct (strings.IndexByte a ":"); cbn; split; try done.
      + intros [_ ?]. done.
    - split; [discriminate|]. intros [? _]. contradiction. }
  destruct (load_config env) as [cfg|]; cbn [mbind option_bind].
  - destruct (load_auth env) as [users|]; cbn [mbind option_bind].
    + split; [discriminate|]. intros [Hlf|Ha].
      * now apply Hcfg in Hlf.
      * now apply Hauth in Ha.
    + split; [|reflexivity]. intros _. right. now apply Hauth.
  - split; [|reflexivity]. intros _. left. now apply Hcfg.
Qed.

(** * Colour, failed enrichment, destination and delivery, in full *)

Section Reached.

Import PerAlert PerAlertRun.

Variable out : Outside.
Variable cfg : Config.
Variable c : Ctx Notification.t.

(** A loop over some alerts that does not panic has posted a card. *)
Lemma turns_reach_delivery alerts evs r :
  turns out cfg c alerts evs r ->
  alerts <> [] -> r <> Panicked ->
  exists pc, posts evs !! 0%nat = Some pc.
Proof.
  destruct 1 as [| alert0 rest evs r Hturn _ | alert0 rest evs evs' r Hturn _];
    intros Hne Hr.
  - contradiction.
  - destruct (turn_posts _ _ _ _ _ _ Hturn) as [(? & _) | (_ & pc & -> & _)];
      [contradiction | eauto].
  - destruct (turn_posts _ _ _ _ _ _ Hturn) as [(? & _) | (_ & pc & Hone & _)];
      [discriminate|].
    rewrite posts_app, Hone. eauto.
Qed.



(** A request with alerts whose handler does not panic reaches the
    delivery. *)
Lemma peralert_reaches_delivery (n : Notification.t) :
  BodyParser c = Ok n ->
  Notification.Alerts n <> [] ->
  (serve out cfg c).1 <> Crashed ->
  exists pc, posts (trace (serve out cfg c).2) !! 0%nat = Some pc.
Proof.
  intros Hc Hne Ho.
  pose proof (peralert_serve_served out cfg c n Hc) as Hs.
  destruct (serve out cfg c) as [o w]. cbn [fst snd] in *.
  destruct Hs as [Hnil | evs _ Hturns | evs err _ Hturns | evs _ Hturns];
    cbn [trace]; [contradiction | | | contradiction];
    apply (turns_reach_delivery _ _ _ Hturns Hne); discriminate.
Qed.

(** On success every alert has its card, at its place. *)
Lemma peralert_success_cards (n : Notification.t) i alert :
  BodyParser c = Ok n ->
  (serve out cfg c).1 = Replied None ->
  Notification.Alerts n !! i = Some alert ->
  exists pc, posts (trace (serve out cfg c).2) !! i = Some pc /\ card_for cfg c alert pc.
Proof.
  intros Hc Ho Ha.
  assert (Hlen : length (posts (trace (serve out cfg c).2))
                 = length (Notification.Alerts n)).
  { pose proof (peralert_serve_served out cfg c n Hc) as Hs.
    destruct (serve out cfg c) as [o w]. cbn [fst snd] in *. subst o.
    inversion Hs as [Hnil | evs _ Hturns | evs err _ Hturns |]; subst; cbn [trace].
    - now rewrite Hnil.
    - now apply (turns_posts_length _ _ _ _ _ _ Hturns).
    - destruct (turns_returned _ _ _ _ _ _ Hturns) as (e & request & Hsome & _).
      discriminate Hsome. }
  destruct (lookup_lt_is_Some_2 (posts (trace (serve out cfg c).2)) i) as [pc Hp].
  { rewrite Hlen. eauto using lookup_lt_Some. }
  exists pc. split; [exact Hp|]. eauto using peralert_cards.
Qed.





End Reached.

(** The grouped handler on a parsed body: it panics, or it has posted one
    card, to the destination, with the title and the colour of the
    notification. *)
Lemma grouped_reaches_delivery (out : Outside) (cfg : Config)
    (c : Ctx Grouped.Notification.t) n :
  BodyParser c = Ok n ->
  (Grouped.serve out cfg c).1 <> Crashed ->
  url_accepted out (GroupedRun.destination cfg c) = true
  /\ exists d reply,
       posts (trace (Grouped.serve out cfg c).2)
       = [(GroupedRun.destination cfg c,
           make_card (GroupedRun.title n) (GroupedRun.color n) d)]
       /\ EvPost (GroupedRun.post_request cfg c n d) reply
          ∈ trace (Grouped.serve out cfg c).2.
Proof.
  intros Hc Ho.
  destruct (grouped_served_posts _ _ _ _ _ _ (grouped_serve_served out cfg c n Hc))
    as [(Hcr & _) | (evs & d & reply & _ & Hok & Htr & Hposts & _)]; [contradiction|].
  split; [exact Hok|]. exists d, reply. split; [exact Hposts|]. rewrite Htr. list_mem.
Qed.


(** Every delivery read off a trace is a POST of the trace. *)
Lemma posts_post (evs : list Event) pc :
  pc ∈ posts evs ->
  exists request reply,
    EvPost request reply ∈ evs /\ pc = (http.URL request, http.Body request).
Proof.
  induction evs as [|ev evs IH]; intros Hin; [in_list Hin|].
  destruct ev as [config request reply | request reply | line]; cbn [posts] in Hin.
  - destruct (IH Hin) as (request' & reply' & Hin' & ->).
    exists request', reply'. split; [list_mem | done].
  - apply elem_of_cons in Hin as [->|Hin].
    + exists request, reply. split; [list_mem | done].
    + destruct (IH Hin) as (request' & reply' & Hin' & ->).
      exists request', reply'. split; [list_mem | done].
  - destruct (IH Hin) as (request' & reply' & Hin' & ->).
    exists request', reply'. split; [list_mem | done].
Qed.

Section Causes.

Import PerAlert PerAlertRun.

Variable out : Outside.
Variable cfg : Config.
Variable c : Ctx Notification.t.







End Causes.

Section GroupedCauses.

Import Grouped GroupedRun.

Variable out : Outside.
Variable cfg : Config.
Variable c : Ctx Notification.t.



End GroupedCauses.

(** ** The colour of the card *)

(** C4: the template of the card header is "green" exactly when the status
    of the entity the card is built from, the notification in the grouped
    handler and the alert in the per-alert handler, is "resolved"; it is
    "red" for every other status, the empty one included.  The cards are
    there: a grouped request that parsed and did not panic has posted one
    card, of that colour; a per-alert request that ended in success has
    posted, for every alert, a card of the colour of the alert, at the
    place of the alert, and one that did not panic has posted the card of
    its first alert. *)
Theorem C4_status_color (out : Outside) (cfg : Config) :
  (forall (c : Ctx Grouped.Notification.t) n pc,
      BodyParser c = Ok n ->
      pc ∈ posts (trace (Grouped.serve out cfg c).2) ->
      (card_template pc.2 = "green" <-> Grouped.Notification.Status n = "resolved")
      /\ (Grouped.Notification.Status n <> "resolved" -> card_template pc.2 = "red"))
  /\ (forall (c : Ctx PerAlert.Notification.t) n i alert pc,
         BodyParser c = Ok n ->
         PerAlert.Notification.Alerts n !! i = Some alert ->
         posts (trace (PerAlert.serve out cfg c).2) !! i = Some pc ->
         (card_template pc.2 = "green" <-> PerAlert.Alert.Status alert = "resolved")
         /\ (PerAlert.Alert.Status alert <> "resolved" -> card_template pc.2 = "red"))
  /\ (forall (c : Ctx Grouped.Notification.t) n,
         BodyParser c = Ok n ->
         (Grouped.serve out cfg c).1 <> Crashed ->
         exists pc,
           posts (trace (Grouped.serve out cfg c).2) = [pc]
           /\ card_template pc.2
              = if decide (Grouped.Notification.Status n = "resolved")
                then "green" else "red")
  /\ (forall (c : Ctx PerAlert.Notification.t) n i alert,
         BodyParser c = Ok n ->
         PerAlert.Notification.Alerts n !! i = Some alert ->
         (PerAlert.serve out cfg c).1 = Replied None
         \/ (i = 0%nat /\ (PerAlert.serve out cfg c).1 <> Crashed) ->
         exists pc,
           posts (trace (PerAlert.serve out cfg c).2) !! i = Some pc
           /\ card_template pc.2
              = if decide (PerAlert.Alert.Status alert = "resolved")
                then "green" else "red").
Proof.
  split; [|split; [|split]].
  - intros c n pc Hc Hpc.
    destruct (grouped_cards out cfg c n pc Hc Hpc) as (d & -> & _).
    cbn. unfold GroupedRun.color.
    destruct (decide (Grouped.Notification.Status n = "resolved")); split; done.
  - intros c n i alert pc Hc Ha Hp.
    destruct (peralert_cards out cfg c n i alert pc Hc Ha Hp) as (d & -> & _).
    cbn. unfold PerAlertRun.color.
    destruct (decide (PerAlert.Alert.Status alert = "resolved")); split; done.
  - intros c n Hc Ho.
    destruct (grouped_reaches_delivery out cfg c n Hc Ho) as (_ & d & _ & Hposts & _).
    eexists. split; [exact Hposts|]. reflexivity.
  - intros c n i alert Hc Ha Hcase.
    assert (exists pc, posts (trace (PerAlert.serve out cfg c).2) !! i = Some pc
                       /\ PerAlertRun.card_for cfg c alert pc) as (pc & Hp & Hcard).
    { destruct Hcase as [Ho | [-> Ho]].
      - exact (peralert_success_cards out cfg c n i alert Hc Ho Ha).
      - destruct (peralert_reaches_delivery out cfg c n Hc) as [pc Hp]; [|exact Ho|].
        { intros Hnil. rewrite Hnil in Ha. discriminate Ha. }
        exists pc. split; [exact Hp|]. exact (peralert_cards out cfg c n _ _ _ Hc Ha Hp). }
    exists pc. split; [exact Hp|]. destruct Hcard as (d & -> & _). reflexivity.
Qed.

Lemma C4_status_color_witness :
  let c := request_of (notification_of "" ∅ ∅ []) "abc" in
  let c' := request_of (PerAlert.decode three_alerts) "abc" in
  (exists pc, posts (trace (Grouped.serve outside_up cfg_plain c).2) = [pc]
              /\ card_template pc.2 = "red")
  /\ (exists pc, posts (trace (PerAlert.serve outside_up cfg_plain c').2) !! 1%nat = Some pc
                 /\ card_template pc.2 = "green")
  /\ (exists pc, posts (trace (PerAlert.serve outside_up cfg_plain c').2) !! 2%nat = Some pc
                 /\ card_template pc.2 = "red").
Proof.
  intros c c'.
  destruct (C4_status_color outside_up cfg_plain) as (_ & _ & Hgrouped & Hperalert).
  split; [|split].
  - apply (Hgrouped c (notification_of "" ∅ ∅ [])); [reflexivity|].
    vm_compute. discriminate.
  - destruct (Hperalert c' (PerAlert.decode three_alerts) 1%nat
                (PerAlert.decode_alert (alert_of "resolved" {[ "alertname" := "HighLoad" ]} ∅)))
      as (pc & Hp & Hcol); [reflexivity | reflexivity | left; vm_compute; reflexivity |].
    exists pc. split; [exact Hp | exact Hcol].
  - destruct (Hperalert c' (PerAlert.decode three_alerts) 2%nat
                (PerAlert.decode_alert (alert_of "firing" {[ "instance" := "db2" ]} ∅)))
      as (pc & Hp & Hcol); [reflexivity | reflexivity | left; vm_compute; reflexivity |].
    exists pc. split; [exact Hp | exact Hcol].
Defined.

(** ** The destination of the card *)

(** C8: every card is posted to the webhook base, a slash, and the bot
    identifier, which is the route parameter when the path has one and the
    configured default otherwise; nothing checks it, and when both are empty
    the URL that is used ends in the slash.  The POSTs are there: a grouped
    request that parsed and did not panic has made one POST, to that URL; a
    per-alert request that ended in success has made one POST to it for
    every alert, and one with alerts that did not panic has made its first
    POST to it. *)
Theorem C8_destination_url (out : Outside) (cfg : Config) :
  (forall (c : Ctx Grouped.Notification.t) pc,
      pc ∈ posts (trace (Grouped.serve out cfg c).2) ->
      pc.1 = feishuWebhookBase cfg +:+ "/"
             +:+ (if decide (route_botUUID c = "")
                  then defaultBotUUID cfg else route_botUUID c)
      /\ (route_botUUID c = "" -> defaultBotUUID cfg = "" ->
          pc.1 = feishuWebhookBase cfg +:+ "/"))
  /\ (forall (c : Ctx PerAlert.Notification.t) pc,
         pc ∈ posts (trace (PerAlert.serve out cfg c).2) ->
         pc.1 = feishuWebhookBase cfg +:+ "/"
                +:+ (if decide (route_botUUID c = "")
                     then defaultBotUUID cfg else route_botUUID c)
         /\ (route_botUUID c = "" -> defaultBotUUID cfg = "" ->
             pc.1 = feishuWebhookBase cfg +:+ "/"))
  /\ (forall (c : Ctx Grouped.Notification.t) n,
         BodyParser c = Ok n ->
         (Grouped.serve out cfg c).1 <> Crashed ->
         exists card reply,
           posts (trace (Grouped.serve out cfg c).2)
           = [(feishuWebhookBase cfg +:+ "/"
               +:+ (if decide (route_botUUID c = "")
                    then defaultBotUUID cfg else route_botUUID c), card)]
           /\ EvPost {| http.Method := "POST";
                        http.URL := feishuWebhookBase cfg +:+ "/"
                                    +:+ (if decide (route_botUUID c = "")
                                         then defaultBotUUID cfg else route_botUUID c);
                        http.ContentType := "application/json; charset=UTF-8";
                        http.Body := card |} reply
              ∈ trace (Grouped.serve out cfg c).2)
  /\ (forall (c : Ctx PerAlert.Notification.t) n i alert,
         BodyParser c = Ok n ->
         PerAlert.Notification.Alerts n !! i = Some alert ->
         (PerAlert.serve out cfg c).1 = Replied None
         \/ (i = 0%nat /\ (PerAlert.serve out cfg c).1 <> Crashed) ->
         exists card reply,
           posts (trace (PerAlert.serve out cfg c).2) !! i
           = Some (feishuWebhookBase cfg +:+ "/"
                   +:+ (if decide (route_botUUID c = "")
                        then defaultBotUUID cfg else route_botUUID c), card)
           /\ EvPost {| http.Method := "POST";
                        http.URL := feishuWebhookBase cfg +:+ "/"
                                    +:+ (if decide (route_botUUID c = "")
                                         then defaultBotUUID cfg else route_botUUID c);
                        http.ContentType := "application/json; charset=UTF-8";
                        http.Body := card |} reply
              ∈ trace (PerAlert.serve out cfg c).2).
Proof.
  split; [|split; [|split]].
  - intros c pc Hpc.
    destruct (BodyParser c) as [n|err] eqn:Hc;
      [|rewrite (grouped_serve_malformed out cfg c err Hc) in Hpc; in_list Hpc].
    destruct (grouped_cards out cfg c n pc Hc Hpc) as (d & -> & _).
    cbn [fst]. unfold GroupedRun.destination, Params. split; [done|].
    intros -> ->. done.
  - intros c pc Hpc.
    destruct (BodyParser c) as [n|err] eqn:Hc;
      [|rewrite (peralert_serve_malformed out cfg c err Hc) in Hpc; in_list Hpc].
    destruct (peralert_cards_mem out cfg c n pc Hc Hpc) as (alert & _ & d & -> & _).
    cbn [fst]. unfold PerAlertRun.destination, Params. split; [done|].
    intros -> ->. done.
  - intros c n Hc Ho.
    destruct (grouped_reaches_delivery out cfg c n Hc Ho)
      as (_ & d & reply & Hposts & Hin).
    exists (make_card (GroupedRun.title n) (GroupedRun.color n) d), reply.
    split; [exact Hposts | exact Hin].
  - intros c n i alert Hc Ha Hcase.
    assert (exists pc, posts (trace (PerAlert.serve out cfg c).2) !! i = Some pc
                       /\ PerAlertRun.card_for cfg c alert pc) as (pc & Hp & Hcard).
    { destruct Hcase as [Ho | [-> Ho]].
      - exact (peralert_success_cards out cfg c n i alert Hc Ho Ha).
      - destruct (peralert_reaches_delivery out cfg c n Hc) as [pc Hp]; [|exact Ho|].
        { intros Hnil. rewrite Hnil in Ha. discriminate Ha. }
        exists pc. split; [exact Hp|]. exact (peralert_cards out cfg c n _ _ _ Hc Ha Hp). }
    destruct Hcard as (d & -> & _).
    destruct (posts_post _ _ (list_elem_of_lookup_2 _ _ _ Hp))
      as (request & reply & Hin & Heq).
    destruct (peralert_event out cfg c n _ Hc Hin) as (alert' & _ & Hev).
    destruct Hev as [(_ & reply' & Hev) | [(d' & reply' & Hev) | (body & Hev)]];
      try discriminate Hev.
    injection Hev as -> ->. apply (f_equal snd) in Heq.
    cbn [snd PerAlertRun.post_request http.Body] in Heq.
    exists (make_card (PerAlertRun.title alert) (PerAlertRun.color alert) d), reply'.
    split; [exact Hp|]. rewrite Heq. exact Hin.
Qed.

Lemma C8_destination_url_witness :
  let c := request_of cpu_high "" in
  let c' := request_of (PerAlert.decode three_alerts) "" in
  (exists card reply,
      posts (trace (Grouped.serve outside_up cfg_plain c).2) = [("https://x/hook/", card)]
      /\ EvPost {| http.Method := "POST"; http.URL := "https://x/hook/";
                   http.ContentType := "application/json; charset=UTF-8";
                   http.Body := card |} reply
         ∈ trace (Grouped.serve outside_up cfg_plain c).2)
  /\ (exists card reply,
         posts (trace (PerAlert.serve outside_up cfg_plain c').2) !! 2%nat
         = Some ("https://x/hook/", card)
         /\ EvPost {| http.Method := "POST"; http.URL := "https://x/hook/";
                      http.ContentType := "application/json; charset=UTF-8";
                      http.Body := card |} reply
            ∈ trace (PerAlert.serve outside_up cfg_plain c').2)
  /\ (forall pc, pc ∈ posts (trace (PerAlert.serve outside_up cfg_plain c').2) ->
                 pc.1 = "https://x/hook/").
Proof.
  intros c c'.
  destruct (C8_destination_url outside_up cfg_plain)
    as (_ & Hall & Hgrouped & Hperalert).
  split; [|split].
  - apply (Hgrouped c cpu_high); [reflexivity|]. vm_compute. discriminate.
  - apply (Hperalert c' (PerAlert.decode three_alerts) 2%nat
             (PerAlert.decode_alert (alert_of "firing" {[ "instance" := "db2" ]} ∅)));
      [reflexivity | reflexivity | left; vm_compute; reflexivity].
  - intros pc Hpc. apply (proj2 (Hall c' pc Hpc)); reflexivity.
Defined.

(** ** A failed enrichment call *)






(** ** The delivery and the outcome *)



